(** * Azure Key Vault master key (internal/sops/azkv/keysource.go)

    A shallow embedding of the [azkv] package: the [AADConfig] credential
    resolver ([SetToken]), the [MasterKey] record with its encrypt / decrypt
    operations, and the [decode] helper that transcodes UTF-16 input.

    Calls into the Azure SDK ([azidentity], [azkeys/crypto]) are effects: a
    program is a tree of SDK requests, and a handler (a service double) gives
    each request its response.  Structural statements about a program (which
    request comes first, or that there is none) therefore hold for every
    double. *)

From Stdlib Require Import ZArith List String Bool Lia.
From Stdlib Require Import Strings.Byte.
Import ListNotations.

Local Open Scope string_scope.
Local Open Scope Z_scope.

(** ** Go values *)

(** A Go [string] is an immutable sequence of bytes, as is Rocq's [string];
    [[]byte] is [list byte].  The conversions [[]byte(s)] and [string(b)]
    copy the bytes. *)
Definition bytes_of_string (s : string) : list byte := list_byte_of_string s.
Definition string_of_bytes (b : list byte) : string := string_of_list_byte b.

(** [s != ""] *)
Definition nonempty (s : string) : bool := negb (String.eqb s "").

(** [AZConfig] is embedded in [AADConfig]: its fields are promoted. *)
Record AADConfig : Type := {
  AppID : string;
  Tenant : string;
  Password : string;
  TenantID : string;
  ClientID : string;
  ClientSecret : string;
  ClientCertificate : string;
  ClientCertificatePassword : string;
  ClientCertificateSendChain : bool;
  AuthorityHost : string
}.

(** The zero value of [AADConfig]. *)
Definition empty_config : AADConfig :=
  {| AppID := ""; Tenant := ""; Password := ""; TenantID := ""; ClientID := "";
     ClientSecret := ""; ClientCertificate := ""; ClientCertificatePassword := "";
     ClientCertificateSendChain := false; AuthorityHost := "" |}.

(** The types, constants and pure functions of the libraries the package
    builds on: the Azure SDK and [sigs.k8s.io/yaml]. *)
Class SDK : Type := {
  (** [azcore.TokenCredential] (a non-nil interface value) *)
  TokenCredential : Type;
  (** [[]*x509.Certificate] *)
  Certificates : Type;
  (** [crypto.PrivateKey] *)
  PrivateKey : Type;
  (** [*crypto.Client] *)
  CryptoClient : Type;
  (** the error values the libraries return *)
  LibError : Type;
  (** [azidentity.AzurePublicCloud] *)
  AzurePublicCloud : string;
  (** [yaml.Unmarshal(b, s)]: the config [s] points to afterwards, and the
      error *)
  yaml_Unmarshal : list byte -> AADConfig -> AADConfig * option LibError
}.

(** [crypto.AlgorithmRSAOAEP256] *)
Definition AlgorithmRSAOAEP256 : string := "RSA-OAEP-256".

(** A Go result pair [(v, err)] of which the caller reads [v] only when
    [err == nil]. *)
Inductive result (E A : Type) : Type :=
| Ok (a : A)
| Err (e : E).
Arguments Ok {E A} a.
Arguments Err {E A} e.

Section Azkv.
Context `{sdk : SDK}.

(** Go [error] values: those of the libraries, [io.EOF] and
    [io.ErrUnexpectedEOF], those [fmt.Errorf] builds from a message, and those
    it builds around another error with [%w]. *)
Inductive error : Type :=
| LibErr (e : LibError)
| EOF
| ErrUnexpectedEOF
| Errorf (msg : string)
| Wrapf (msg : string) (cause : error).

(** ** SDK requests *)

(** A credential constructor returns [(cred, err)] and [SetToken] stores
    [cred] whatever [err] is, so the response keeps both components;
    [ParseCertificates] returns three values. *)
Inductive Op : Type -> Type :=
| NewClientSecretCredential (tenantID clientID clientSecret authorityHost : string)
  : Op (option TokenCredential * option LibError)
| ParseCertificates (certData password : list byte)
  : Op (Certificates * PrivateKey * option LibError)
| NewClientCertificateCredential (tenantID clientID : string)
    (certs : Certificates) (pk : PrivateKey)
    (sendCertificateChain : bool) (authorityHost : string)
  : Op (option TokenCredential * option LibError)
| NewManagedIdentityCredential (id : string)
  : Op (option TokenCredential * option LibError)
| NewClient (keyURL : string) (cred : option TokenCredential)
  : Op (result LibError CryptoClient)
| ClientEncrypt (c : CryptoClient) (alg : string) (plaintext : list byte)
  : Op (result LibError (list byte))
| ClientDecrypt (c : CryptoClient) (alg : string) (ciphertext : list byte)
  : Op (result LibError (list byte)).

(** Programs over the SDK. *)
Inductive Prog (A : Type) : Type :=
| Ret (a : A)
| Vis {R : Type} (op : Op R) (k : R -> Prog A).
Arguments Ret {A} a.
Arguments Vis {A R} op k.

Fixpoint bind {A B : Type} (p : Prog A) (f : A -> Prog B) : Prog B :=
  match p with
  | Ret a => f a
  | Vis op k => Vis op (fun r => bind (k r) f)
  end.

Definition call {R : Type} (op : Op R) : Prog R := Vis op Ret.

Notation "x <- p ;; q" := (bind p (fun x => q))
  (at level 61, p at next level, right associativity).
Notation "' pat <- p ;; q" := (bind p (fun x => match x with pat => q end))
  (at level 61, pat pattern, p at next level, right associativity).

(** A request together with its response type, for traces. *)
Inductive Event : Type :=
| Ev {R : Type} (op : Op R).

(** A service double: it answers every request, from a state of its own. *)
Definition Handler (W : Type) : Type := forall R : Type, Op R -> W -> R * W.

(** Run a program against a double; the result, the double's final state and
    the requests made, in order. *)
Fixpoint run {W A : Type} (h : Handler W) (p : Prog A) (w : W)
  : A * W * list Event :=
  match p with
  | Ret a => (a, w, [])
  | Vis op k =>
      let '(r, w1) := h _ op w in
      let '(a, w2, tr) := run h (k r) w1 in
      (a, w2, Ev op :: tr)
  end.

(** ** Data model *)

(** [time.Time] as nanoseconds on the clock's time line. *)
Definition Time : Type := Z.

Record MasterKey : Type := {
  VaultURL : string;
  Name : string;
  Version : string;
  EncryptedKey : string;
  CreationDate : Time;
  token : option TokenCredential
}.

Definition set_token (key : MasterKey) (t : option TokenCredential) : MasterKey :=
  {| VaultURL := VaultURL key; Name := Name key; Version := Version key;
     EncryptedKey := EncryptedKey key; CreationDate := CreationDate key;
     token := t |}.

Definition set_EncryptedKey (key : MasterKey) (enc : string) : MasterKey :=
  {| VaultURL := VaultURL key; Name := Name key; Version := Version key;
     EncryptedKey := enc; CreationDate := CreationDate key;
     token := token key |}.

(** ** Credential resolution *)

Definition GetAuthorityHost (s : AADConfig) : string :=
  if nonempty (AuthorityHost s) then AuthorityHost s else AzurePublicCloud.

Definition invalid_data_message : string :=
  "invalid data: requires a '" ++ "clientId" ++ "' field, a combination of '"
  ++ "tenantId" ++ "', '" ++ "clientId" ++ "' and '" ++ "clientSecret"
  ++ "', or '" ++ "tenantId" ++ "', '" ++ "clientId" ++ "' and '"
  ++ "clientCertificate" ++ "'".

Definition lift_err (e : option LibError) : option error := option_map LibErr e.

(** [key.token, err = ...; return err] *)
Definition assign_token (key : MasterKey)
    (r : option TokenCredential * option LibError)
  : Prog (option MasterKey * option error) :=
  Ret (Some (set_token key (fst r)), lift_err (snd r)).

(** [SetToken].  Both the receiver and [key] are pointers and may be nil;
    the record [key] points to is returned with the error. *)
Definition SetToken (s : option AADConfig) (key : option MasterKey)
  : Prog (option MasterKey * option error) :=
  match s, key with
  | Some s, Some key =>
      let after_tenant_block :=
        if nonempty (Tenant s) && nonempty (AppID s) && nonempty (Password s) then
          r <- call (NewClientSecretCredential (Tenant s) (AppID s) (Password s)
                       (GetAuthorityHost s)) ;;
          assign_token key r
        else if nonempty (ClientID s) then
          r <- call (NewManagedIdentityCredential (ClientID s)) ;;
          assign_token key r
        else
          Ret (Some key, Some (Errorf invalid_data_message)) in
      if nonempty (TenantID s) && nonempty (ClientID s) then
        if nonempty (ClientSecret s) then
          r <- call (NewClientSecretCredential (TenantID s) (ClientID s)
                       (ClientSecret s) (GetAuthorityHost s)) ;;
          assign_token key r
        else if nonempty (ClientCertificate s) then
          (* [certs, pk, err := ...] declares a new [err]; the next line
             assigns it again before anything reads it. *)
          '(certs, pk, _) <- call (ParseCertificates
                                     (bytes_of_string (ClientCertificate s))
                                     (bytes_of_string (ClientCertificatePassword s))) ;;
          r <- call (NewClientCertificateCredential (TenantID s) (ClientID s)
                       certs pk (ClientCertificateSendChain s)
                       (GetAuthorityHost s)) ;;
          assign_token key r
        else after_tenant_block
      else after_tenant_block
  | _, _ => Ret (key, None)
  end.

(** ** Key record *)

(** [fmt.Sprintf("%s/keys/%s/%s", ...)] *)
Definition ToString (key : MasterKey) : string :=
  VaultURL key ++ "/keys/" ++ Name key ++ "/" ++ Version key.

Definition EncryptedDataKey (key : MasterKey) : list byte :=
  bytes_of_string (EncryptedKey key).


Definition Encrypt (dataKey : list byte) (key : MasterKey)
  : Prog (MasterKey * option error) :=
  c <- call (NewClient (ToString key) (token key)) ;;
  match c with
  | Err e =>
      Ret (key, Some (Wrapf "failed to construct client to encrypt data" (LibErr e)))
  | Ok c =>
      resp <- call (ClientEncrypt c AlgorithmRSAOAEP256 dataKey) ;;
      match resp with
      | Err e => Ret (key, Some (Wrapf "failed to encrypt data" (LibErr e)))
      | Ok res => Ret (set_EncryptedKey key (string_of_bytes res), None)
      end
  end.

Definition EncryptIfNeeded (dataKey : list byte) (key : MasterKey)
  : Prog (MasterKey * option error) :=
  if String.eqb (EncryptedKey key) "" then Encrypt dataKey key
  else Ret (key, None).

Definition Decrypt (key : MasterKey) : Prog (option (list byte) * option error) :=
  c <- call (NewClient (ToString key) (token key)) ;;
  match c with
  | Err e =>
      Ret (None, Some (Wrapf "failed to construct client to decrypt data" (LibErr e)))
  | Ok c =>
      resp <- call (ClientDecrypt c AlgorithmRSAOAEP256
                      (bytes_of_string (EncryptedKey key))) ;;
      match resp with
      | Err e => Ret (None, Some (Wrapf "failed to decrypt data" (LibErr e)))
      | Ok res => Ret (Some res, None)
      end
  end.

(** *** Rotation *)

(** [time.Duration] is an [int64] count of nanoseconds. *)
Definition minDuration : Z := - 2 ^ 63.
Definition maxDuration : Z := 2 ^ 63 - 1.
Definition Nanosecond : Z := 1.
Definition Microsecond : Z := 1000 * Nanosecond.
Definition Millisecond : Z := 1000 * Microsecond.
Definition Second : Z := 1000 * Millisecond.
Definition Minute : Z := 60 * Second.
Definition Hour : Z := 60 * Minute.

(** [t.Sub(u)]: the duration [t - u], or the largest (smallest) duration
    when the difference does not fit. *)
Definition Sub (t u : Time) : Z :=
  if maxDuration <? t - u then maxDuration
  else if t - u <? minDuration then minDuration
  else t - u.

(** [time.Since(t)] is [time.Now().Sub(t)]; the clock's reading is [now]. *)
Definition Since (now t : Time) : Z := Sub now t.

Definition NeedsRotation (now : Time) (key : MasterKey) : bool :=
  Since now (CreationDate key) >? Hour * 24 * 30 * 6.

(** ** Decoding the authentication file *)

Definition byte_to_Z (b : byte) : Z := Z.of_N (Byte.to_N b).

(** The conversion [byte(x)] of an integer: its low eight bits. *)
Definition byte_of_Z (x : Z) : byte :=
  match Byte.of_N (Z.to_N (x mod 256)) with
  | Some b => b
  | None => x00
  end.

(** *** [utfbom.Skip] *)

Inductive Encoding : Type :=
| Unknown
| UTF8
| UTF16BigEndian
| UTF16LittleEndian
| UTF32BigEndian
| UTF32LittleEndian.

(** [strip_prefix p b] is what follows [p] in [b], when [b] starts with [p]. *)
Fixpoint strip_prefix (p b : list byte) : option (list byte) :=
  match p, b with
  | [], _ => Some b
  | x :: p', y :: b' => if Byte.eqb x y then strip_prefix p' b' else None
  | _ :: _, [] => None
  end.

(** [utfbom.Skip(bytes.NewReader(b))]: the bytes left to read and the encoding
    the byte-order mark announces.  The library reads up to four bytes and
    tests them for the marks of UTF-32 (big, little endian), UTF-8 and
    UTF-16 (big, little endian), in this order. *)
Definition Skip (b : list byte) : list byte * Encoding :=
  match strip_prefix [x00; x00; xfe; xff] b with
  | Some rest => (rest, UTF32BigEndian)
  | None =>
  match strip_prefix [xff; xfe; x00; x00] b with
  | Some rest => (rest, UTF32LittleEndian)
  | None =>
  match strip_prefix [xef; xbb; xbf] b with
  | Some rest => (rest, UTF8)
  | None =>
  match strip_prefix [xfe; xff] b with
  | Some rest => (rest, UTF16BigEndian)
  | None =>
  match strip_prefix [xff; xfe] b with
  | Some rest => (rest, UTF16LittleEndian)
  | None => (b, Unknown)
  end end end end end.

(** *** [encoding/binary] *)

Inductive ByteOrder : Type :=
| LittleEndian
| BigEndian.

(** [order.Uint16(b)] on the two bytes [b0 b1]. *)
Definition Uint16 (order : ByteOrder) (b0 b1 : byte) : Z :=
  match order with
  | LittleEndian => Z.lor (byte_to_Z b0) (Z.shiftl (byte_to_Z b1) 8)
  | BigEndian => Z.lor (byte_to_Z b1) (Z.shiftl (byte_to_Z b0) 8)
  end.

Fixpoint uint16s (order : ByteOrder) (n : nat) (r : list byte) : list Z :=
  match n, r with
  | S n', b0 :: b1 :: r' => Uint16 order b0 b1 :: uint16s order n' r'
  | _, _ => []
  end.

(** [binary.Read(reader, order, &u16)] for a slice of [n] values: it reads
    [2 * n] bytes with [io.ReadFull], which reports [io.EOF] when the reader
    has nothing, [io.ErrUnexpectedEOF] when it has too little, and never fails
    for an empty slice. *)
Definition binary_Read (r : list byte) (order : ByteOrder) (n : nat)
  : result error (list Z) :=
  match n with
  | O => Ok []
  | S _ =>
      match r with
      | [] => Err EOF
      | _ :: _ =>
          if (List.length r <? 2 * n)%nat then Err ErrUnexpectedEOF
          else Ok (uint16s order n r)
      end
  end.

(** *** [unicode/utf16] and the conversion from runes to a string *)

Definition surr1 : Z := 0xd800.
Definition surr2 : Z := 0xdc00.
Definition surr3 : Z := 0xe000.
Definition surrSelf : Z := 0x10000.
Definition replacementChar : Z := 0xFFFD.
Definition maxRune : Z := 0x10FFFF.

(** [utf16.DecodeRune] on a pair that [Decode] has checked to be a surrogate
    pair. *)
Definition DecodeRune (r1 r2 : Z) : Z :=
  Z.lor (Z.shiftl (r1 - surr1) 10) (r2 - surr2) + surrSelf.

Fixpoint utf16_Decode (s : list Z) : list Z :=
  match s with
  | [] => []
  | r :: s' =>
      if (r <? surr1) || (surr3 <=? r) then r :: utf16_Decode s'
      else
        match s' with
        | r2 :: s'' =>
            if (surr1 <=? r) && (r <? surr2) && (surr2 <=? r2) && (r2 <? surr3)
            then DecodeRune r r2 :: utf16_Decode s''
            else replacementChar :: utf16_Decode s'
        | [] => replacementChar :: utf16_Decode s'
        end
  end.

Definition t2 : Z := 0xC0.
Definition t3 : Z := 0xE0.
Definition t4 : Z := 0xF0.
Definition tx : Z := 0x80.
Definition maskx : Z := 0x3F.

Definition encode3 (r : Z) : list byte :=
  [byte_of_Z (Z.lor t3 (Z.shiftr r 12 mod 256));
   byte_of_Z (Z.lor tx (Z.land (Z.shiftr r 6 mod 256) maskx));
   byte_of_Z (Z.lor tx (Z.land (r mod 256) maskx))].

(** [utf8.EncodeRune]: a surrogate half or a value out of range is encoded
    as U+FFFD. *)
Definition EncodeRune (r : Z) : list byte :=
  let i := r mod 2 ^ 32 in
  if i <=? 0x7F then [byte_of_Z r]
  else if i <=? 0x7FF then
    [byte_of_Z (Z.lor t2 (Z.shiftr r 6 mod 256));
     byte_of_Z (Z.lor tx (Z.land (r mod 256) maskx))]
  else if (maxRune <? i) || ((0xD800 <=? i) && (i <=? 0xDFFF)) then
    encode3 replacementChar
  else if i <=? 0xFFFF then encode3 r
  else
    [byte_of_Z (Z.lor t4 (Z.shiftr r 18 mod 256));
     byte_of_Z (Z.lor tx (Z.land (Z.shiftr r 12 mod 256) maskx));
     byte_of_Z (Z.lor tx (Z.land (Z.shiftr r 6 mod 256) maskx));
     byte_of_Z (Z.lor tx (Z.land (r mod 256) maskx))].

(** [string(runes)]: the UTF-8 encodings of the runes, concatenated. *)
Definition string_of_runes (runes : list Z) : string :=
  string_of_bytes (flat_map EncodeRune runes).

(** *** [decode] and [LoadAADConfigFromBytes] *)

(** [make([]uint16, (len(b)/2)-1)]: the length of the slice. *)
Definition u16_len (b : list byte) : nat :=
  Z.to_nat (Z.of_nat (List.length b) / 2 - 1).

Definition decode (b : list byte) : result error (list byte) :=
  let '(reader, enc) := Skip b in
  match enc with
  | UTF16LittleEndian =>
      match binary_Read reader LittleEndian (u16_len b) with
      | Err err => Err err
      | Ok u16 => Ok (bytes_of_string (string_of_runes (utf16_Decode u16)))
      end
  | UTF16BigEndian =>
      match binary_Read reader BigEndian (u16_len b) with
      | Err err => Err err
      | Ok u16 => Ok (bytes_of_string (string_of_runes (utf16_Decode u16)))
      end
  | _ => Ok reader
  end.

Definition LoadAADConfigFromBytes (b : list byte) (s : AADConfig)
  : AADConfig * option error :=
  match decode b with
  | Err err =>
      (s, Some (Wrapf "failed to decode Azure authentication file bytes" err))
  | Ok b =>
      let '(s', err) := yaml_Unmarshal b s in
      (s', option_map
             (fun e => Wrapf "failed to unmarshal Azure authentication file" (LibErr e))
             err)
  end.

(** *** Encoders, for stating what [decode] is given *)

(** [utf16.Encode] *)
Definition utf16_EncodeRune (v : Z) : list Z :=
  if ((0 <=? v) && (v <? surr1)) || ((surr3 <=? v) && (v <? surrSelf)) then [v]
  else if (surrSelf <=? v) && (v <=? maxRune) then
    [surr1 + Z.land (Z.shiftr (v - surrSelf) 10) 0x3ff;
     surr2 + Z.land (v - surrSelf) 0x3ff]
  else [replacementChar].

Definition utf16_Encode (s : list Z) : list Z := flat_map utf16_EncodeRune s.

(** [order.PutUint16] for each value. *)
Definition put_uint16 (order : ByteOrder) (v : Z) : list byte :=
  match order with
  | LittleEndian => [byte_of_Z v; byte_of_Z (Z.shiftr v 8)]
  | BigEndian => [byte_of_Z (Z.shiftr v 8); byte_of_Z v]
  end.

Definition utf16_bytes (order : ByteOrder) (text : list Z) : list byte :=
  flat_map (put_uint16 order) (utf16_Encode text).

Definition utf8_bytes (text : list Z) : list byte :=
  bytes_of_string (string_of_runes text).

(** A Unicode scalar value: a code point that is not a surrogate half. *)
Definition scalar (r : Z) : Prop :=
  0 <= r < surr1 \/ surr3 <= r <= maxRune.

(** ** Vocabulary of the statements *)

(** The error a run returns, and the requests it made. *)
Definition returned_error {W A B : Type} (x : A * option B * W * list Event)
  : option B := snd (fst (fst x)).
Definition requests {W A : Type} (x : A * W * list Event) : list Event := snd x.

(** The four field combinations as the specification lists them:
    [tenantId], [clientId] and [clientSecret]; [tenantId], [clientId] and
    [clientCertificate]; the legacy [tenant], [appId] and [password]; and
    [clientId] alone, with no [tenantId]. *)
Definition spec_combination1 (s : AADConfig) : bool :=
  nonempty (TenantID s) && nonempty (ClientID s) && nonempty (ClientSecret s).
Definition spec_combination2 (s : AADConfig) : bool :=
  nonempty (TenantID s) && nonempty (ClientID s) && nonempty (ClientCertificate s).
Definition spec_combination3 (s : AADConfig) : bool :=
  nonempty (Tenant s) && nonempty (AppID s) && nonempty (Password s).
Definition spec_combination4 (s : AADConfig) : bool :=
  nonempty (ClientID s) && negb (nonempty (TenantID s)).
Definition spec_recognized (s : AADConfig) : bool :=
  spec_combination1 s || spec_combination2 s || spec_combination3 s
  || spec_combination4 s.

(** The condition under which [SetToken] reaches its last [if]: neither
    return inside the [tenantId]/[clientId] block was taken, nor the legacy
    one. *)
Definition reaches_clientID_test (s : AADConfig) : bool :=
  negb (nonempty (TenantID s) && nonempty (ClientID s)
        && (nonempty (ClientSecret s) || nonempty (ClientCertificate s)))
  && negb (nonempty (Tenant s) && nonempty (AppID s) && nonempty (Password s)).

(** The config [{tenantId: t, clientId: c}]: nothing else is set. *)
Definition tenant_and_client : AADConfig :=
  {| AppID := ""; Tenant := ""; Password := ""; TenantID := "t"; ClientID := "c";
     ClientSecret := ""; ClientCertificate := ""; ClientCertificatePassword := "";
     ClientCertificateSendChain := false; AuthorityHost := "" |}.

(** A remote service double that is capable for a key reference and a
    credential: it always builds the same client [c] for them, encrypts every
    plaintext with that client under RSA-OAEP-256, and decrypts what it
    returned back to the plaintext, whatever state it is in by then. *)
Definition capable {W : Type} (h : Handler W) (keyURL : string)
    (cred : option TokenCredential) (c : CryptoClient) : Prop :=
  (forall w, fst (h _ (NewClient keyURL cred) w) = Ok c) /\
  (forall d w, exists ct,
     fst (h _ (ClientEncrypt c AlgorithmRSAOAEP256 d) w) = Ok ct /\
     forall w', fst (h _ (ClientDecrypt c AlgorithmRSAOAEP256 ct) w') = Ok d).

Definition is_uint16 (u : Z) : Prop := 0 <= u < 65536.


(** A program that fails fast: it returns an error without any request. *)
Definition fails_fast {A : Type} (p : Prog (A * option error)) : Prop :=
  exists (a : A) (e : error), p = Ret (a, Some e).

(** ** Serialization *)

(** A Go [map[string]interface{}] whose values are all strings, as the list
    of its entries.  [m[k] = v] replaces the entry of [k] or adds one; [m[k]]
    finds it. *)
Definition GoMap : Type := list (string * string).

Fixpoint map_set (m : GoMap) (k v : string) : GoMap :=
  match m with
  | [] => [(k, v)]
  | (k', v') :: m' =>
      if String.eqb k' k then (k, v) :: m' else (k', v') :: map_set m' k v
  end.

Fixpoint map_get (m : GoMap) (k : string) : option string :=
  match m with
  | [] => None
  | (k', v') :: m' => if String.eqb k' k then Some v' else map_get m' k
  end.

(** [ToMap].  [RFC3339_UTC t] stands for [t.UTC().Format(time.RFC3339)]. *)
Definition ToMap (RFC3339_UTC : Time -> string) (key : MasterKey) : GoMap :=
  let out := [] in
  let out := map_set out "vaultUrl" (VaultURL key) in
  let out := map_set out "key" (Name key) in
  let out := map_set out "version" (Version key) in
  let out := map_set out "created_at" (RFC3339_UTC (CreationDate key)) in
  let out := map_set out "enc" (EncryptedKey key) in
  out.

(** ** More vocabulary *)

(** Requests to [azidentity], as opposed to requests to the key vault. *)
Definition identity_request (e : Event) : bool :=
  match e with
  | Ev op =>
      match op with
      | NewClientSecretCredential _ _ _ _ => true
      | ParseCertificates _ _ => true
      | NewClientCertificateCredential _ _ _ _ _ _ => true
      | NewManagedIdentityCredential _ => true
      | NewClient _ _ => false
      | ClientEncrypt _ _ _ => false
      | ClientDecrypt _ _ _ => false
      end
  end.

(** The record a run returns. *)
Definition returned {W A B : Type} (x : A * B * W * list Event) : A :=
  fst (fst (fst x)).

(** The fields of a record that are persisted. *)
Definition same_persisted (k1 k2 : MasterKey) : Prop :=
  VaultURL k1 = VaultURL k2 /\ Name k1 = Name k2 /\ Version k1 = Version k2 /\
  EncryptedKey k1 = EncryptedKey k2 /\ CreationDate k1 = CreationDate k2.

(** Requests to a credential constructor of [azidentity]. *)
Definition credential_constructor (e : Event) : bool :=
  match e with
  | Ev op =>
      match op with
      | NewClientSecretCredential _ _ _ _ => true
      | NewClientCertificateCredential _ _ _ _ _ _ => true
      | NewManagedIdentityCredential _ => true
      | ParseCertificates _ _ => false
      | NewClient _ _ => false
      | ClientEncrypt _ _ _ => false
      | ClientDecrypt _ _ _ => false
      end
  end.

End Azkv.

Arguments Ret {sdk A} a.
Arguments Vis {sdk A R} op k.
Arguments Ev {sdk R} op.

(** * A concrete double

    A small instance of the libraries and a service double over it, to run
    the definitions on concrete inputs. *)

Section Double.

(** A double of [yaml.Unmarshal] that knows one rule of YAML, that a stream
    may not contain the NUL character, and sets no field. *)
Definition yaml_double (b : list byte) (s : AADConfig) : AADConfig * option string :=
  if existsb (Byte.eqb x00) b
  then (s, Some "yaml: control characters are not allowed")
  else (s, None).

(** Credentials and clients are described by strings, a certificate list by
    its bytes, a private key by whether there is one. *)
#[local] Instance double_sdk : SDK := {|
  TokenCredential := string;
  Certificates := list byte;
  PrivateKey := bool;
  CryptoClient := string;
  LibError := string;
  AzurePublicCloud := "https://login.microsoftonline.com/";
  yaml_Unmarshal := yaml_double
|}.

(** The toy cipher of the double: a tag byte in front of the plaintext. *)
Definition double_encrypt (d : list byte) : list byte := xaa :: d.
Definition double_decrypt (ct : list byte) : result string (list byte) :=
  match ct with
  | xaa :: d => Ok d
  | _ => Err "invalid ciphertext"
  end.

(** The double counts the requests it answers.  It builds a client for any
    credential, the nil one included, parses no certificate but the text
    [CERT], and builds no certificate credential from an empty certificate
    list. *)
Definition double : Handler nat :=
  fun (R : Type) (op : Op R) (n : nat) =>
    match op in Op R0 return (R0 * nat)%type with
    | NewClientSecretCredential t c _ a =>
        ((Some ("client-secret " ++ t ++ " " ++ c ++ " " ++ a), None), S n)
    | ParseCertificates data _ =>
        if String.eqb (string_of_bytes data) "CERT"
        then ((data, true, None), S n)
        else (([], false, Some "failed to parse certificate"), S n)
    | NewClientCertificateCredential t c certs _ _ a =>
        match certs with
        | [] => ((None, Some "at least one certificate is required"), S n)
        | _ :: _ => ((Some ("client-certificate " ++ t ++ " " ++ c ++ " " ++ a), None), S n)
        end
    | NewManagedIdentityCredential id =>
        ((Some ("managed-identity " ++ id), None), S n)
    | NewClient keyURL _ => (Ok keyURL, S n)
    | ClientEncrypt _ alg d =>
        if String.eqb alg AlgorithmRSAOAEP256
        then (Ok (double_encrypt d), S n)
        else (Err "unsupported algorithm", S n)
    | ClientDecrypt _ alg ct =>
        if String.eqb alg AlgorithmRSAOAEP256
        then (double_decrypt ct, S n)
        else (Err "unsupported algorithm", S n)
    end.

(** A fresh record for the key [https://v.example/keys/k1/v1]. *)
Definition fresh_key : MasterKey :=
  {| VaultURL := "https://v.example"; Name := "k1"; Version := "v1";
     EncryptedKey := ""; CreationDate := 0; token := None |}.

(** A config with both the [tenantId] / [clientId] / [clientSecret] fields
    and the legacy ones. *)
Definition secret_and_legacy : AADConfig :=
  {| AppID := "legacy-app"; Tenant := "legacy-tenant"; Password := "legacy-password";
     TenantID := "t"; ClientID := "c"; ClientSecret := "s";
     ClientCertificate := ""; ClientCertificatePassword := "";
     ClientCertificateSendChain := false; AuthorityHost := "" |}.

(** A config for the certificate branch whose certificate does not parse. *)
Definition bad_certificate : AADConfig :=
  {| AppID := ""; Tenant := ""; Password := "";
     TenantID := "t"; ClientID := "c"; ClientSecret := "";
     ClientCertificate := "not a certificate"; ClientCertificatePassword := "";
     ClientCertificateSendChain := false; AuthorityHost := "" |}.

(** The record [fresh_key] with the token [tok]. *)
Definition key_with_token : MasterKey := set_token fresh_key (Some "tok").

(** The record [fresh_key] with the payload [enc]. *)
Definition encrypted_key : MasterKey := set_EncryptedKey fresh_key "enc".

(** The text [a: b]. *)
Definition sample_text : list Z := [97; 58; 32; 98].

(** A config with the legacy fields and a [clientId], without [tenantId]. *)
Definition legacy_and_client : AADConfig :=
  {| AppID := "legacy-app"; Tenant := "legacy-tenant"; Password := "legacy-password";
     TenantID := ""; ClientID := "c"; ClientSecret := "";
     ClientCertificate := ""; ClientCertificatePassword := "";
     ClientCertificateSendChain := false; AuthorityHost := "" |}.

(** A config with both a client secret and a certificate. *)
Definition secret_and_certificate : AADConfig :=
  {| AppID := ""; Tenant := ""; Password := "";
     TenantID := "t"; ClientID := "c"; ClientSecret := "s";
     ClientCertificate := "CERT"; ClientCertificatePassword := "pw";
     ClientCertificateSendChain := true; AuthorityHost := "https://login.example/" |}.

(** A config for the certificate branch, with the certificate the double
    parses. *)
Definition good_certificate : AADConfig :=
  {| AppID := ""; Tenant := ""; Password := "";
     TenantID := "t"; ClientID := "c"; ClientSecret := "";
     ClientCertificate := "CERT"; ClientCertificatePassword := "pw";
     ClientCertificateSendChain := true; AuthorityHost := "https://login.example/" |}.

(** The config [{clientId: c}]. *)
Definition client_only : AADConfig :=
  {| AppID := ""; Tenant := ""; Password := "";
     TenantID := ""; ClientID := "c"; ClientSecret := "";
     ClientCertificate := ""; ClientCertificatePassword := "";
     ClientCertificateSendChain := false; AuthorityHost := "" |}.

(** [s] with [clientId] set to [v]. *)
Definition set_ClientID (s : AADConfig) (v : string) : AADConfig :=
  {| AppID := AppID s; Tenant := Tenant s; Password := Password s;
     TenantID := TenantID s; ClientID := v; ClientSecret := ClientSecret s;
     ClientCertificate := ClientCertificate s;
     ClientCertificatePassword := ClientCertificatePassword s;
     ClientCertificateSendChain := ClientCertificateSendChain s;
     AuthorityHost := AuthorityHost s |}.

(** The bytes up to the first line feed. *)
Fixpoint first_line (b : list byte) : list byte :=
  match b with
  | [] => []
  | c :: b' => if Byte.eqb c x0a then [] else c :: first_line b'
  end.

(** A double of [yaml.Unmarshal] that reads one field.  As a YAML parser
    does, it skips a UTF-8 byte-order mark at the start of the stream and
    rejects a stream that contains the NUL character, leaving the config
    untouched; of a stream that starts with [clientId: ] it stores the rest
    of the line in [clientId]. *)
Definition yaml_clientId_double (b : list byte) (s : AADConfig)
  : AADConfig * option string :=
  let stream :=
    match strip_prefix [xef; xbb; xbf] b with
    | Some rest => rest
    | None => b
    end in
  if existsb (Byte.eqb x00) stream
  then (s, Some "yaml: control characters are not allowed")
  else
    match strip_prefix (bytes_of_string "clientId: ") stream with
    | Some v => (set_ClientID s (string_of_bytes (first_line v)), None)
    | None => (s, None)
    end.

(** The libraries of [double_sdk], with the YAML double that reads
    [clientId]. *)
Definition yaml_sdk : SDK := {|
  TokenCredential := string;
  Certificates := list byte;
  PrivateKey := bool;
  CryptoClient := string;
  LibError := string;
  AzurePublicCloud := "https://login.microsoftonline.com/";
  yaml_Unmarshal := yaml_clientId_double
|}.



End Double.

(** * Properties *)

Section AzkvProperties.
Context `{sdk : SDK}.

(** ** Programs and doubles *)

Lemma nonempty_true (s : string) : s <> "" -> nonempty s = true.
Proof.
  intros Hs. unfold nonempty.
  destruct (String.eqb_spec s ""); [contradiction | reflexivity].
Qed.

Lemma nonempty_false (s : string) : s = "" -> nonempty s = false.
Proof. intros ->. reflexivity. Qed.

Lemma nonempty_iff (s : string) : nonempty s = true <-> s <> "".
Proof.
  split; [| apply nonempty_true].
  unfold nonempty. destruct (String.eqb_spec s ""); [discriminate | trivial].
Qed.

Lemma run_Ret {W A : Type} (h : Handler W) (a : A) (w : W) :
  run h (Ret a) w = (a, w, []).
Proof. reflexivity. Qed.

Lemma run_Vis {W A R : Type} (h : Handler W) (op : Op R) (k : R -> Prog A) (w : W) :
  run h (Vis op k) w =
  (fst (fst (run h (k (fst (h _ op w))) (snd (h _ op w)))),
   snd (fst (run h (k (fst (h _ op w))) (snd (h _ op w)))),
   Ev op :: snd (run h (k (fst (h _ op w))) (snd (h _ op w)))).
Proof.
  simpl. destruct (h R op w) as [r w1]. simpl.
  destruct (run h (k r) w1) as [[a w2] tr]. reflexivity.
Qed.

(** A single request followed by a return. *)
Lemma run_call_ret {W A R : Type} (h : Handler W) (op : Op R) (f : R -> A) (w : W) :
  run h (Vis op (fun r => Ret (f r))) w =
  (f (fst (h _ op w)), snd (h _ op w), [Ev op]).
Proof. rewrite run_Vis. reflexivity. Qed.

(** ** Credential resolution *)

(** At its last [if], [SetToken] asks for a managed identity as soon as
    [clientId] is there, and reports invalid data otherwise. *)
Lemma SetToken_last_test (s : AADConfig) (key : MasterKey) :
  reaches_clientID_test s = true ->
  SetToken (Some s) (Some key) =
  if nonempty (ClientID s)
  then Vis (NewManagedIdentityCredential (ClientID s)) (assign_token key)
  else Ret (Some key, Some (Errorf invalid_data_message)).
Proof.
  unfold reaches_clientID_test, SetToken.
  destruct (nonempty (TenantID s)), (nonempty (ClientID s)),
    (nonempty (ClientSecret s)), (nonempty (ClientCertificate s)),
    (nonempty (Tenant s)), (nonempty (AppID s)), (nonempty (Password s));
    simpl; intros H; try discriminate H; reflexivity.
Qed.

(** [SetToken] returns the invalid-data error, and makes no request, exactly
    when its last test is reached with an empty [clientId]. *)
Lemma SetToken_invalid_data_iff (s : AADConfig) (key : MasterKey) :
  SetToken (Some s) (Some key) = Ret (Some key, Some (Errorf invalid_data_message))
  <-> reaches_clientID_test s = true /\ nonempty (ClientID s) = false.
Proof.
  split.
  - unfold reaches_clientID_test, SetToken.
    destruct (nonempty (TenantID s)), (nonempty (ClientID s)),
      (nonempty (ClientSecret s)), (nonempty (ClientCertificate s)),
      (nonempty (Tenant s)), (nonempty (AppID s)), (nonempty (Password s));
      simpl; intros H; try discriminate H; split; reflexivity.
  - intros [Hr Hc]. rewrite (SetToken_last_test s key Hr), Hc. reflexivity.
Qed.

(** No credential constructor can make [SetToken] return the invalid-data
    error: a run that made a request returns a library error or none. *)
Lemma assign_token_not_invalid {W : Type} (h : Handler W) (key : MasterKey)
    {R : Type} (op : Op R) (f : R -> option TokenCredential * option LibError) (w : W) :
  returned_error (run h (Vis op (fun r => assign_token key (f r))) w)
  <> Some (Errorf invalid_data_message).
Proof.
  unfold assign_token. rewrite run_call_ret. unfold returned_error, lift_err. simpl.
  destruct (snd (f (fst (h R op w)))); simpl; congruence.
Qed.

(** For every double, a run of [SetToken] returns the invalid-data error
    exactly when the config has none of: [tenantId], [clientId] and a
    secret or certificate; the three legacy fields; a [clientId]. *)
Lemma SetToken_invalid_data_run_iff {W : Type} (h : Handler W) (w : W)
    (s : AADConfig) (key : MasterKey) :
  returned_error (run h (SetToken (Some s) (Some key)) w)
    = Some (Errorf invalid_data_message)
  <-> reaches_clientID_test s = true /\ nonempty (ClientID s) = false.
Proof.
  split.
  - unfold reaches_clientID_test, SetToken.
    destruct (nonempty (TenantID s)), (nonempty (ClientID s)),
      (nonempty (ClientSecret s)), (nonempty (ClientCertificate s)),
      (nonempty (Tenant s)), (nonempty (AppID s)), (nonempty (Password s));
      cbn [andb orb negb]; intros H; try (split; reflexivity); exfalso;
      revert H;
      try (apply (assign_token_not_invalid h key _ (fun r => r)));
      cbn [bind call]; rewrite run_Vis;
      destruct (h _ (ParseCertificates _ _) w) as [[[certs pk] e] w1];
      cbn [fst snd];
      apply (assign_token_not_invalid h key _ (fun r => r)).
  - intros Hs. apply SetToken_invalid_data_iff with (key := key) in Hs.
    rewrite Hs. reflexivity.
Qed.

(** C1 (the code at the failing input).  The config [{tenantId: t,
    clientId: c}] reaches the last test of [SetToken] with [tenantId]
    present, and [SetToken] requests a managed-identity credential for [c]:
    the last test reads [clientId] only, although the function's comment says
    "a clientId field but no tenantId". *)
Theorem SetToken_managed_identity_despite_tenantId (key : MasterKey) :
  reaches_clientID_test tenant_and_client = true /\
  nonempty (TenantID tenant_and_client) = true /\
  SetToken (Some tenant_and_client) (Some key) =
    Vis (NewManagedIdentityCredential "c") (assign_token key).
Proof. repeat split. Qed.

(** C5 (the code at the failing input).  The config [{tenantId: t,
    clientId: c}] has none of the four combinations the specification
    lists, yet no run of [SetToken] on it returns the invalid-data error: the
    one request is for a managed identity.  The empty config does get the
    invalid-data error. *)
Theorem SetToken_unrecognized_without_invalid_data (key : MasterKey) :
  spec_recognized tenant_and_client = false /\
  (forall (W : Type) (h : Handler W) (w : W),
     returned_error (run h (SetToken (Some tenant_and_client) (Some key)) w)
       <> Some (Errorf invalid_data_message) /\
     requests (run h (SetToken (Some tenant_and_client) (Some key)) w)
       = [Ev (NewManagedIdentityCredential "c")]) /\
  SetToken (Some empty_config) (Some key)
    = Ret (Some key, Some (Errorf invalid_data_message)).
Proof.
  split; [reflexivity | split; [| reflexivity]].
  intros W h w. split.
  - apply (assign_token_not_invalid h key _ (fun r => r)).
  - change (SetToken (Some tenant_and_client) (Some key))
      with (Vis (NewManagedIdentityCredential "c")
              (fun r => Ret (Some (set_token key (fst r)), lift_err (snd r)))).
    rewrite run_call_ret. reflexivity.
Qed.

(** When [SetToken] returns the invalid-data error, none of the four
    combinations of the specification is present. *)
Lemma SetToken_invalid_data_unrecognized (s : AADConfig) (key : MasterKey) :
  SetToken (Some s) (Some key) = Ret (Some key, Some (Errorf invalid_data_message)) ->
  spec_recognized s = false.
Proof.
  intros H. apply SetToken_invalid_data_iff in H. destruct H as [Hr Hc].
  revert Hr. unfold reaches_clientID_test, spec_recognized, spec_combination1,
    spec_combination2, spec_combination3, spec_combination4.
  rewrite Hc.
  destruct (nonempty (TenantID s)), (nonempty (Tenant s)), (nonempty (AppID s)),
    (nonempty (Password s)); simpl; intros H; try discriminate H; reflexivity.
Qed.

(** C6.  When [tenantId], [clientId] and [clientSecret] are all present and
    the legacy [tenant], [appId] and [password] are all present too,
    [SetToken] makes one request: a client-secret credential from
    [tenantId], [clientId] and [clientSecret] (with the authority host), whose
    result it stores; under every double that is the only request made. *)
Theorem SetToken_client_secret_before_legacy (s : AADConfig) (key : MasterKey) :
  TenantID s <> "" -> ClientID s <> "" -> ClientSecret s <> "" ->
  Tenant s <> "" -> AppID s <> "" -> Password s <> "" ->
  SetToken (Some s) (Some key) =
    Vis (NewClientSecretCredential (TenantID s) (ClientID s) (ClientSecret s)
           (GetAuthorityHost s))
        (assign_token key) /\
  forall (W : Type) (h : Handler W) (w : W),
    requests (run h (SetToken (Some s) (Some key)) w) =
      [Ev (NewClientSecretCredential (TenantID s) (ClientID s) (ClientSecret s)
             (GetAuthorityHost s))].
Proof.
  intros Ht Hc Hs _ _ _.
  assert (E : SetToken (Some s) (Some key) =
    Vis (NewClientSecretCredential (TenantID s) (ClientID s) (ClientSecret s)
           (GetAuthorityHost s))
        (fun r => Ret (Some (set_token key (fst r)), lift_err (snd r)))).
  { unfold SetToken.
    rewrite (nonempty_true _ Ht), (nonempty_true _ Hc), (nonempty_true _ Hs).
    reflexivity. }
  split; [exact E |].
  intros W h w. rewrite E, run_call_ret. reflexivity.
Qed.

(** C10.  With a nil config or a nil key record [SetToken] makes no request
    and returns no error; the record, when there is one, is returned as it
    was (its token included). *)
Theorem SetToken_nil (s : option AADConfig) (key : option MasterKey) :
  SetToken None key = Ret (key, None) /\
  SetToken s None = Ret (None, None).
Proof. split; [reflexivity | destruct s; reflexivity]. Qed.

(** One request answered by the double. *)
Lemma run_Vis_eq {W A R : Type} (h : Handler W) (op : Op R) (k : R -> Prog A)
    (w w1 : W) (r : R) :
  h _ op w = (r, w1) ->
  run h (Vis op k) w =
  (fst (fst (run h (k r) w1)), snd (fst (run h (k r) w1)),
   Ev op :: snd (run h (k r) w1)).
Proof. intros H. rewrite run_Vis, H. reflexivity. Qed.

(** In the certificate branch [SetToken] makes two requests, and the third
    component of the first response (the parse error) is not read: the
    credential constructor is called with whatever certificates and key came
    back, and its error is the one returned. *)
Lemma SetToken_certificate_branch {W : Type} (h : Handler W) (w w1 w2 : W)
    (s : AADConfig) (key : MasterKey)
    (certs : Certificates) (pk : PrivateKey) (perr : option LibError)
    (r : option TokenCredential * option LibError) :
  TenantID s <> "" -> ClientID s <> "" -> ClientSecret s = "" ->
  ClientCertificate s <> "" ->
  h _ (ParseCertificates (bytes_of_string (ClientCertificate s))
         (bytes_of_string (ClientCertificatePassword s))) w
    = ((certs, pk, perr), w1) ->
  h _ (NewClientCertificateCredential (TenantID s) (ClientID s) certs pk
         (ClientCertificateSendChain s) (GetAuthorityHost s)) w1
    = (r, w2) ->
  run h (SetToken (Some s) (Some key)) w =
    ((Some (set_token key (fst r)), lift_err (snd r)), w2,
     [Ev (ParseCertificates (bytes_of_string (ClientCertificate s))
            (bytes_of_string (ClientCertificatePassword s)));
      Ev (NewClientCertificateCredential (TenantID s) (ClientID s) certs pk
            (ClientCertificateSendChain s) (GetAuthorityHost s))]).
Proof.
  intros Ht Hc Hs Hcert Hparse Hnew. unfold SetToken.
  rewrite (nonempty_true _ Ht), (nonempty_true _ Hc), (nonempty_false _ Hs),
    (nonempty_true _ Hcert).
  cbn [andb bind call].
  rewrite (run_Vis_eq h _ _ w w1 _ Hparse). cbn [bind].
  rewrite (run_Vis_eq h _ _ w1 w2 _ Hnew). reflexivity.
Qed.

(** ** Key record *)

(** The fully-qualified key reference does not depend on the payload. *)
Lemma ToString_set_EncryptedKey (key : MasterKey) (enc : string) :
  ToString (set_EncryptedKey key enc) = ToString key.
Proof. reflexivity. Qed.

Lemma bytes_of_string_of_bytes (b : list byte) :
  bytes_of_string (string_of_bytes b) = b.
Proof. apply list_byte_of_string_of_list_byte. Qed.

(** What a run of [Encrypt] does, by the double's answers. *)
Lemma run_Encrypt_client_error {W : Type} (h : Handler W) (w w1 : W)
    (dataKey : list byte) (key : MasterKey) (e : LibError) :
  h _ (NewClient (ToString key) (token key)) w = (Err e, w1) ->
  run h (Encrypt dataKey key) w =
    ((key, Some (Wrapf "failed to construct client to encrypt data" (LibErr e))),
     w1, [Ev (NewClient (ToString key) (token key))]).
Proof.
  intros H. unfold Encrypt. cbn [bind call].
  rewrite (run_Vis_eq h _ _ w w1 _ H). reflexivity.
Qed.

Lemma run_Encrypt_client_ok {W : Type} (h : Handler W) (w w1 w2 : W)
    (dataKey : list byte) (key : MasterKey) (c : CryptoClient)
    (resp : result LibError (list byte)) :
  h _ (NewClient (ToString key) (token key)) w = (Ok c, w1) ->
  h _ (ClientEncrypt c AlgorithmRSAOAEP256 dataKey) w1 = (resp, w2) ->
  run h (Encrypt dataKey key) w =
    (match resp with
     | Err e => (key, Some (Wrapf "failed to encrypt data" (LibErr e)))
     | Ok res => (set_EncryptedKey key (string_of_bytes res), None)
     end,
     w2, [Ev (NewClient (ToString key) (token key));
          Ev (ClientEncrypt c AlgorithmRSAOAEP256 dataKey)]).
Proof.
  intros H1 H2. unfold Encrypt. cbn [bind call].
  rewrite (run_Vis_eq h _ _ w w1 _ H1). cbn [bind].
  rewrite (run_Vis_eq h _ _ w1 w2 _ H2). destruct resp; reflexivity.
Qed.

(** What a run of [Decrypt] does, by the double's answers. *)
Lemma run_Decrypt_client_error {W : Type} (h : Handler W) (w w1 : W)
    (key : MasterKey) (e : LibError) :
  h _ (NewClient (ToString key) (token key)) w = (Err e, w1) ->
  run h (Decrypt key) w =
    ((None, Some (Wrapf "failed to construct client to decrypt data" (LibErr e))),
     w1, [Ev (NewClient (ToString key) (token key))]).
Proof.
  intros H. unfold Decrypt. cbn [bind call].
  rewrite (run_Vis_eq h _ _ w w1 _ H). reflexivity.
Qed.

Lemma run_Decrypt_client_ok {W : Type} (h : Handler W) (w w1 w2 : W)
    (key : MasterKey) (c : CryptoClient) (resp : result LibError (list byte)) :
  h _ (NewClient (ToString key) (token key)) w = (Ok c, w1) ->
  h _ (ClientDecrypt c AlgorithmRSAOAEP256 (bytes_of_string (EncryptedKey key))) w1
    = (resp, w2) ->
  run h (Decrypt key) w =
    (match resp with
     | Err e => (None, Some (Wrapf "failed to decrypt data" (LibErr e)))
     | Ok res => (Some res, None)
     end,
     w2, [Ev (NewClient (ToString key) (token key));
          Ev (ClientDecrypt c AlgorithmRSAOAEP256
                (bytes_of_string (EncryptedKey key)))]).
Proof.
  intros H1 H2. unfold Decrypt. cbn [bind call].
  rewrite (run_Vis_eq h _ _ w w1 _ H1). cbn [bind].
  rewrite (run_Vis_eq h _ _ w1 w2 _ H2). destruct resp; reflexivity.
Qed.

(** C2.  On a record with a resolved caller token, against a double that is
    capable for the record's key reference and token, [Encrypt dataKey]
    succeeds and stores the ciphertext, and [Decrypt] on the resulting record
    returns exactly [dataKey], in whatever state the double is by then.  Both
    build their client for the same reference [ToString key] and pass the
    algorithm RSA-OAEP-256. *)
Theorem Decrypt_Encrypt_roundtrip {W : Type} (h : Handler W) (w : W)
    (dataKey : list byte) (key : MasterKey)
    (cred : TokenCredential) (c : CryptoClient) :
  token key = Some cred ->
  capable h (ToString key) (Some cred) c ->
  exists (ct : list byte) (w1 : W),
    run h (Encrypt dataKey key) w =
      ((set_EncryptedKey key (string_of_bytes ct), None), w1,
       [Ev (NewClient (ToString key) (Some cred));
        Ev (ClientEncrypt c "RSA-OAEP-256" dataKey)]) /\
    forall w' : W, exists w2 : W,
      run h (Decrypt (set_EncryptedKey key (string_of_bytes ct))) w' =
        ((Some dataKey, None), w2,
         [Ev (NewClient (ToString key) (Some cred));
          Ev (ClientDecrypt c "RSA-OAEP-256" ct)]).
Proof.
  intros Htok [Hnew Hinv].
  destruct (h _ (NewClient (ToString key) (token key)) w) as [r1 w1] eqn:E1.
  assert (r1 = Ok c) as ->.
  { specialize (Hnew w). rewrite <- Htok, E1 in Hnew. exact Hnew. }
  destruct (Hinv dataKey w1) as [ct [Henc Hdec]].
  destruct (h _ (ClientEncrypt c AlgorithmRSAOAEP256 dataKey) w1) as [r2 w2] eqn:E2.
  simpl in Henc. subst r2.
  exists ct, w2. split.
  - rewrite (run_Encrypt_client_ok h w w1 w2 dataKey key c (Ok ct) E1 E2).
    rewrite Htok. reflexivity.
  - intros w'.
    set (key' := set_EncryptedKey key (string_of_bytes ct)).
    destruct (h _ (NewClient (ToString key') (token key')) w') as [r3 w3] eqn:E3.
    assert (r3 = Ok c) as ->.
    { specialize (Hnew w'). unfold key' in E3. cbn [token set_EncryptedKey] in E3.
      rewrite ToString_set_EncryptedKey, Htok in E3. rewrite E3 in Hnew. exact Hnew. }
    destruct (h _ (ClientDecrypt c AlgorithmRSAOAEP256
                     (bytes_of_string (EncryptedKey key'))) w3) as [r4 w4] eqn:E4.
    exists w4.
    rewrite (run_Decrypt_client_ok h w' w3 w4 key' c r4 E3 E4).
    unfold key' in *. cbn [EncryptedKey token set_EncryptedKey] in *.
    rewrite ToString_set_EncryptedKey, bytes_of_string_of_bytes in *.
    specialize (Hdec w3). rewrite E4 in Hdec. simpl in Hdec. subst r4.
    rewrite Htok. reflexivity.
Qed.

(** C4 (as amended).  [Encrypt] and [Decrypt] do not test the token.  On a
    record whose token is not set, each first asks for a client for the key
    reference and the nil credential.  When that request fails, the error
    comes back wrapped and no other request is made; when it succeeds, the
    remote encrypt (decrypt) operation is invoked with that client. *)
Theorem Encrypt_Decrypt_without_token {W : Type} (h : Handler W) (w : W)
    (dataKey : list byte) (key : MasterKey) :
  token key = None ->
  (forall e : LibError,
     fst (h _ (NewClient (ToString key) None) w) = Err e ->
     fst (run h (Encrypt dataKey key) w) =
       ((key, Some (Wrapf "failed to construct client to encrypt data" (LibErr e))),
        snd (h _ (NewClient (ToString key) None) w)) /\
     requests (run h (Encrypt dataKey key) w) = [Ev (NewClient (ToString key) None)] /\
     fst (run h (Decrypt key) w) =
       ((None, Some (Wrapf "failed to construct client to decrypt data" (LibErr e))),
        snd (h _ (NewClient (ToString key) None) w)) /\
     requests (run h (Decrypt key) w) = [Ev (NewClient (ToString key) None)]) /\
  (forall c : CryptoClient,
     fst (h _ (NewClient (ToString key) None) w) = Ok c ->
     requests (run h (Encrypt dataKey key) w) =
       [Ev (NewClient (ToString key) None);
        Ev (ClientEncrypt c AlgorithmRSAOAEP256 dataKey)] /\
     requests (run h (Decrypt key) w) =
       [Ev (NewClient (ToString key) None);
        Ev (ClientDecrypt c AlgorithmRSAOAEP256 (bytes_of_string (EncryptedKey key)))]).
Proof.
  intros Htok.
  destruct (h _ (NewClient (ToString key) None) w) as [r1 w1] eqn:E1.
  pose proof E1 as E1'. rewrite <- Htok in E1'.
  split.
  - intros e He. simpl in He. subst r1.
    rewrite (run_Encrypt_client_error h w w1 dataKey key e E1').
    rewrite (run_Decrypt_client_error h w w1 key e E1').
    rewrite Htok. repeat split.
  - intros c Hc. simpl in Hc. subst r1.
    destruct (h _ (ClientEncrypt c AlgorithmRSAOAEP256 dataKey) w1)
      as [r2 w2] eqn:E2.
    destruct (h _ (ClientDecrypt c AlgorithmRSAOAEP256
                     (bytes_of_string (EncryptedKey key))) w1) as [r3 w3] eqn:E3.
    rewrite (run_Encrypt_client_ok h w w1 w2 dataKey key c r2 E1' E2).
    rewrite (run_Decrypt_client_ok h w w1 w3 key c r3 E1' E3).
    rewrite Htok. split; reflexivity.
Qed.

(** C7.  On a record whose encrypted payload is not empty,
    [EncryptIfNeeded] is a plain return: no request is made under any double,
    the error is nil and the record comes back as it was.  Hence, when [key]
    is the record a first call returned, a second call leaves it as the first
    one set it. *)
Theorem EncryptIfNeeded_idempotent (key : MasterKey) (dataKey : list byte) :
  EncryptedKey key <> "" ->
  EncryptIfNeeded dataKey key = Ret (key, None) /\
  (forall (W : Type) (h : Handler W) (w : W),
     run h (EncryptIfNeeded dataKey key) w = ((key, None), w, [])) /\
  (forall (W : Type) (h : Handler W) (w0 w : W) (key0 : MasterKey)
          (dataKey0 : list byte) (tr : list Event),
     run h (EncryptIfNeeded dataKey0 key0) w0 = ((key, None), w, tr) ->
     run h (EncryptIfNeeded dataKey key) w = ((key, None), w, [])).
Proof.
  intros Hne.
  assert (E : EncryptIfNeeded dataKey key = Ret (key, None)).
  { unfold EncryptIfNeeded.
    destruct (String.eqb_spec (EncryptedKey key) ""); [contradiction | reflexivity]. }
  split; [exact E |]. split; intros; rewrite E; reflexivity.
Qed.

(** On a record with an empty payload [EncryptIfNeeded] is [Encrypt]. *)
Lemma EncryptIfNeeded_empty (key : MasterKey) (dataKey : list byte) :
  EncryptedKey key = "" -> EncryptIfNeeded dataKey key = Encrypt dataKey key.
Proof. intros H. unfold EncryptIfNeeded. rewrite H. reflexivity. Qed.

(** The rotation period, in nanoseconds: 180 days. *)
Lemma rotation_period : Hour * 24 * 30 * 6 = 180 * (24 * (3600 * 10 ^ 9)).
Proof. reflexivity. Qed.

(** C8.  [NeedsRotation] is a function of the clock reading and the creation
    date only: it is true exactly when more than 180 days (6 times 30 days)
    have passed since the creation date.  It is false at the creation date. *)
Theorem NeedsRotation_spec (now : Time) (key : MasterKey) :
  (NeedsRotation now key = true
   <-> now - CreationDate key > 180 * (24 * (3600 * 10 ^ 9))) /\
  NeedsRotation (CreationDate key) key = false /\
  (forall key' : MasterKey,
     CreationDate key' = CreationDate key ->
     NeedsRotation now key' = NeedsRotation now key).
Proof.
  assert (Hiff : forall t u : Z,
            (Sub t u >? Hour * 24 * 30 * 6) = true
            <-> t - u > 180 * (24 * (3600 * 10 ^ 9))).
  { intros t u. rewrite rotation_period. unfold Sub, maxDuration, minDuration.
    rewrite Z.gtb_gt.
    destruct (Z.ltb_spec (2 ^ 63 - 1) (t - u));
      [| destruct (Z.ltb_spec (t - u) (- 2 ^ 63))]; lia. }
  split; [apply Hiff |]. split.
  - unfold NeedsRotation, Since.
    destruct (Sub (CreationDate key) (CreationDate key) >? Hour * 24 * 30 * 6)
      eqn:E; [| reflexivity].
    apply Hiff in E. lia.
  - intros key' H. unfold NeedsRotation. rewrite H. reflexivity.
Qed.

(** ** Decoding *)

(** *** Bytes and bit operations *)

Lemma byte_to_Z_range (b : byte) : 0 <= byte_to_Z b < 256.
Proof.
  unfold byte_to_Z. pose proof (Byte.to_N_bounded b). lia.
Qed.

Lemma byte_to_Z_of_Z (x : Z) : byte_to_Z (byte_of_Z x) = x mod 256.
Proof.
  unfold byte_to_Z, byte_of_Z.
  pose proof (Z.mod_pos_bound x 256 ltac:(lia)) as Hx.
  destruct (Byte.of_N (Z.to_N (x mod 256))) as [b |] eqn:E.
  - apply Byte.to_of_N in E. rewrite E. lia.
  - apply Byte.of_N_None_iff in E. lia.
Qed.


(** Bits that do not overlap add up. *)
Lemma lor_shiftl_low (hi lo k : Z) :
  0 <= k -> 0 <= lo < 2 ^ k -> Z.lor (Z.shiftl hi k) lo = hi * 2 ^ k + lo.
Proof.
  intros Hk Hlo.
  assert (Hland : Z.land (Z.shiftl hi k) lo = 0).
  { apply Z.bits_inj'. intros n Hn. rewrite Z.land_spec, Z.bits_0.
    destruct (Z.lt_ge_cases n k) as [Hlt | Hge].
    - rewrite Z.shiftl_spec_low by assumption. reflexivity.
    - destruct (Z.eq_dec lo 0) as [-> | Hnz];
        [rewrite Z.bits_0; apply andb_false_r |].
      rewrite (Z.bits_above_log2 lo n); [apply andb_false_r | lia |].
      apply Z.log2_lt_pow2; [lia |].
      apply Z.lt_le_trans with (2 ^ k); [lia |].
      apply Z.pow_le_mono_r; lia. }
  rewrite <- Z.lxor_lor by exact Hland.
  rewrite <- Z.add_nocarry_lxor by exact Hland.
  rewrite Z.shiftl_mul_pow2 by exact Hk. reflexivity.
Qed.


Lemma land_0x3ff (x : Z) : Z.land x 0x3ff = x mod 1024.
Proof. change 0x3ff with (Z.ones 10). apply Z.land_ones. lia. Qed.

Lemma shiftr_div (x n : Z) : 0 <= n -> Z.shiftr x n = x / 2 ^ n.
Proof. intros H. apply Z.shiftr_div_pow2. exact H. Qed.


(** *** UTF-16 *)

Lemma utf16_EncodeRune_cases (r : Z) :
  scalar r ->
  (r < surrSelf /\ utf16_EncodeRune r = [r]) \/
  (surrSelf <= r /\
   utf16_EncodeRune r =
     [surr1 + (r - surrSelf) / 1024; surr2 + (r - surrSelf) mod 1024]).
Proof.
  unfold scalar, utf16_EncodeRune, surr1, surr3, surrSelf, maxRune. intros H.
  destruct (Z.lt_ge_cases r 0x10000) as [Hlt | Hge].
  - left. split; [exact Hlt |].
    destruct H as [H | H].
    + replace ((0 <=? r) && (r <? 55296)) with true; [reflexivity |].
      symmetry. apply andb_true_iff. split; [apply Z.leb_le | apply Z.ltb_lt]; lia.
    + replace ((57344 <=? r) && (r <? 65536)) with true;
        [rewrite orb_true_r; reflexivity |].
      symmetry. apply andb_true_iff. split; [apply Z.leb_le | apply Z.ltb_lt]; lia.
  - right. split; [exact Hge |].
    replace (r <? 55296) with false by (symmetry; apply Z.ltb_ge; lia).
    replace (r <? 65536) with false by (symmetry; apply Z.ltb_ge; lia).
    rewrite !andb_false_r. cbn [orb].
    replace ((65536 <=? r) && (r <=? 1114111)) with true.
    + rewrite !land_0x3ff, shiftr_div by lia.
      change (2 ^ 10) with 1024.
      rewrite (Z.mod_small ((r - 65536) / 1024) 1024); [reflexivity |].
      split; [apply Z.div_pos; lia | apply Z.div_lt_upper_bound; lia].
    + symmetry. apply andb_true_iff. split; apply Z.leb_le; lia.
Qed.

(** The units that encode a scalar value are 16-bit values, and the first
    one is zero only for U+0000. *)
Lemma utf16_EncodeRune_units (r : Z) :
  scalar r ->
  Forall is_uint16 (utf16_EncodeRune r) /\
  exists u us, utf16_EncodeRune r = u :: us /\ (u = 0 -> r = 0).
Proof.
  intros H. pose proof H as Hs.
  unfold scalar, surr1, surr3, maxRune in Hs.
  destruct (utf16_EncodeRune_cases r H) as [[Hlt ->] | [Hge ->]];
    unfold surr1, surr2, surrSelf in *.
  - split; [repeat constructor; lia |].
    exists r, []. split; [reflexivity | trivial].
  - assert (0 <= (r - 65536) / 1024 < 1024).
    { split; [apply Z.div_pos; lia | apply Z.div_lt_upper_bound; lia]. }
    pose proof (Z.mod_pos_bound (r - 65536) 1024 ltac:(lia)).
    split; [repeat constructor; lia |].
    eexists _, _. split; [reflexivity | lia].
Qed.

(** [utf16.Decode] undoes [utf16.Encode] on scalar values. *)
Lemma utf16_Decode_EncodeRune (r : Z) (rest : list Z) :
  scalar r ->
  utf16_Decode (utf16_EncodeRune r ++ rest) = r :: utf16_Decode rest.
Proof.
  intros H. pose proof H as Hs.
  unfold scalar, surr1, surr3, maxRune in Hs.
  destruct (utf16_EncodeRune_cases r H) as [[Hlt ->] | [Hge ->]];
    unfold surrSelf in *.
  - cbn [app utf16_Decode]. unfold surr1, surr3.
    replace ((r <? 55296) || (57344 <=? r)) with true; [reflexivity |].
    symmetry. apply orb_true_iff.
    destruct Hs; [left; apply Z.ltb_lt | right; apply Z.leb_le]; lia.
  - assert (Hhi : 0 <= (r - 65536) / 1024 < 1024).
    { split; [apply Z.div_pos; lia | apply Z.div_lt_upper_bound; lia]. }
    pose proof (Z.mod_pos_bound (r - 65536) 1024 ltac:(lia)) as Hlo.
    cbn [app utf16_Decode]. unfold surr1, surr2, surr3.
    replace (55296 + (r - 65536) / 1024 <? 55296) with false
      by (symmetry; apply Z.ltb_ge; lia).
    replace (57344 <=? 55296 + (r - 65536) / 1024) with false
      by (symmetry; apply Z.leb_gt; lia).
    cbn [orb].
    replace (55296 <=? 55296 + (r - 65536) / 1024) with true
      by (symmetry; apply Z.leb_le; lia).
    replace (55296 + (r - 65536) / 1024 <? 56320) with true
      by (symmetry; apply Z.ltb_lt; lia).
    replace (56320 <=? 56320 + (r - 65536) mod 1024) with true
      by (symmetry; apply Z.leb_le; lia).
    replace (56320 + (r - 65536) mod 1024 <? 57344) with true
      by (symmetry; apply Z.ltb_lt; lia).
    cbn [andb]. f_equal.
    unfold DecodeRune, surr1, surr2, surrSelf.
    replace (55296 + (r - 65536) / 1024 - 55296) with ((r - 65536) / 1024) by lia.
    replace (56320 + (r - 65536) mod 1024 - 56320) with ((r - 65536) mod 1024) by lia.
    rewrite lor_shiftl_low by (change (2 ^ 10) with 1024; lia).
    change (2 ^ 10) with 1024.
    pose proof (Z.div_mod (r - 65536) 1024 ltac:(lia)). lia.
Qed.

Lemma utf16_Decode_Encode (text : list Z) :
  Forall scalar text -> utf16_Decode (utf16_Encode text) = text.
Proof.
  induction 1 as [| r text Hr _ IH]; [reflexivity |].
  unfold utf16_Encode in *. cbn [flat_map].
  rewrite utf16_Decode_EncodeRune by exact Hr. rewrite IH. reflexivity.
Qed.

Lemma utf16_Encode_units (text : list Z) :
  Forall scalar text -> Forall is_uint16 (utf16_Encode text).
Proof.
  induction 1 as [| r text Hr _ IH]; [constructor |].
  unfold utf16_Encode in *. cbn [flat_map].
  apply Forall_app. split; [apply utf16_EncodeRune_units; exact Hr | exact IH].
Qed.

(** *** Little-endian bytes *)

Lemma Uint16_put_uint16 (u : Z) :
  is_uint16 u ->
  Uint16 LittleEndian (byte_of_Z u) (byte_of_Z (Z.shiftr u 8)) = u.
Proof.
  unfold is_uint16, Uint16. intros Hu.
  rewrite !byte_to_Z_of_Z, shiftr_div by lia. change (2 ^ 8) with 256.
  pose proof (Z.mod_pos_bound u 256 ltac:(lia)).
  rewrite (Z.mod_small (u / 256) 256)
    by (split; [apply Z.div_pos; lia | apply Z.div_lt_upper_bound; lia]).
  rewrite Z.lor_comm, lor_shiftl_low by (change (2 ^ 8) with 256; lia).
  change (2 ^ 8) with 256.
  pose proof (Z.div_mod u 256 ltac:(lia)). lia.
Qed.




(** *** UTF-8 *)


(** *** Byte-order marks *)

Lemma strip_prefix_Some (p b r : list byte) :
  strip_prefix p b = Some r <-> b = (p ++ r)%list.
Proof.
  revert b. induction p as [| x p IH]; intros b; cbn [strip_prefix app].
  - split; congruence.
  - destruct b as [| y b]; [split; discriminate |].
    destruct (Byte.eqb x y) eqn:E.
    + apply Byte.byte_dec_bl in E. subst y. rewrite IH. split; congruence.
    + apply Byte.eqb_false in E. split; [discriminate | congruence].
Qed.

Lemma strip_prefix_None (p b : list byte) :
  (forall r, b <> (p ++ r)%list) -> strip_prefix p b = None.
Proof.
  intros H. destruct (strip_prefix p b) as [r |] eqn:E; [| reflexivity].
  apply strip_prefix_Some in E. elim (H r E).
Qed.

(** Input whose first byte starts no mark, or starts the UTF-8 mark without
    continuing it, is left as it is. *)
Lemma Skip_Unknown (b0 : byte) (bs : list byte) :
  b0 <> x00 -> b0 <> xff -> b0 <> xfe ->
  (b0 = xef -> forall r, bs <> xbb :: xbf :: r) ->
  Skip (b0 :: bs) = (b0 :: bs, Unknown).
Proof.
  intros H0 Hff Hfe Hef. unfold Skip.
  rewrite !strip_prefix_None; [reflexivity | | | | |];
    intros r E; cbn [app] in E; injection E as E1 E2;
    try contradiction.
  apply (Hef E1 r E2).
Qed.

(** After the UTF-16 little-endian mark, anything but two zero bytes. *)
Lemma Skip_UTF16LittleEndian (bs : list byte) :
  (forall r, bs <> x00 :: x00 :: r) ->
  Skip (xff :: xfe :: bs) = (bs, UTF16LittleEndian).
Proof.
  intros H. unfold Skip.
  rewrite (strip_prefix_None [x00; x00; xfe; xff]) by (intros r E; discriminate E).
  rewrite (strip_prefix_None [xff; xfe; x00; x00])
    by (intros r E; injection E as E; apply (H r E)).
  rewrite (strip_prefix_None [xef; xbb; xbf]) by (intros r E; discriminate E).
  rewrite (strip_prefix_None [xfe; xff]) by (intros r E; discriminate E).
  reflexivity.
Qed.

(** *** [decode] *)









(** [decode] never fails: after a UTF-16 mark there are always enough bytes
    for the [(len(b)/2)-1] values it reads. *)
Lemma decode_total (b : list byte) : exists out, decode b = Ok out.
Proof.
  unfold decode. destruct (Skip b) as [reader enc] eqn:ES.
  assert (Hbom : forall p, strip_prefix p b = Some reader -> List.length p = 2%nat ->
            forall order, exists u16,
              binary_Read reader order (u16_len b) = Ok u16).
  { intros p Hp Hlen order. apply strip_prefix_Some in Hp. subst b.
    unfold u16_len, binary_Read. rewrite length_app, Hlen.
    destruct (Z.to_nat (Z.of_nat (2 + List.length reader) / 2 - 1)) as [| n] eqn:En;
      [eexists; reflexivity |].
    assert (Hn : (2 * S n <= List.length reader)%nat).
    { assert (Z.of_nat (S n) = Z.of_nat (2 + List.length reader) / 2 - 1) by lia.
      pose proof (Z.div_mod (Z.of_nat (2 + List.length reader)) 2 ltac:(lia)).
      pose proof (Z.mod_pos_bound (Z.of_nat (2 + List.length reader)) 2 ltac:(lia)).
      lia. }
    destruct reader as [| b0 reader]; [simpl in Hn; lia |].
    replace (_ <? _)%nat with false by (symmetry; apply Nat.ltb_ge; exact Hn).
    eexists; reflexivity. }
  unfold Skip in ES.
  destruct (strip_prefix [x00; x00; xfe; xff] b);
    [injection ES as <- <-; eexists; reflexivity |].
  destruct (strip_prefix [xff; xfe; x00; x00] b);
    [injection ES as <- <-; eexists; reflexivity |].
  destruct (strip_prefix [xef; xbb; xbf] b);
    [injection ES as <- <-; eexists; reflexivity |].
  destruct (strip_prefix [xfe; xff] b) as [r1 |] eqn:E1.
  { injection ES as <- <-.
    destruct (Hbom _ E1 eq_refl BigEndian) as [u16 ->]. eexists; reflexivity. }
  destruct (strip_prefix [xff; xfe] b) as [r2 |] eqn:E2.
  { injection ES as <- <-.
    destruct (Hbom _ E2 eq_refl LittleEndian) as [u16 ->]. eexists; reflexivity. }
  injection ES as <- <-. eexists; reflexivity.
Qed.

End AzkvProperties.

(** * Further properties *)

Section AzkvFurther.
Context `{sdk : SDK}.

(** ** Credential resolution *)

Lemma set_token_same (key : MasterKey) : set_token key (token key) = key.
Proof. destruct key. reflexivity. Qed.

(** The three shapes of a run of [SetToken] on a config and a record: no
    request and the invalid-data error; one request to a credential
    constructor; or [ParseCertificates] followed by the certificate credential
    constructor.  In the last two the token and the error are the two
    components of the last response. *)
Lemma SetToken_run_cases {W : Type} (h : Handler W) (w : W)
    (s : AADConfig) (key : MasterKey) :
  run h (SetToken (Some s) (Some key)) w
    = ((Some key, Some (Errorf invalid_data_message)), w, []) \/
  (exists op : Op (option TokenCredential * option LibError),
     identity_request (Ev op) = true /\
     run h (SetToken (Some s) (Some key)) w =
       ((Some (set_token key (fst (fst (h _ op w)))),
         lift_err (snd (fst (h _ op w)))),
        snd (h _ op w), [Ev op])) \/
  (exists (op1 : Op (Certificates * PrivateKey * option LibError))
          (op2 : Op (option TokenCredential * option LibError)),
     identity_request (Ev op1) = true /\ identity_request (Ev op2) = true /\
     run h (SetToken (Some s) (Some key)) w =
       ((Some (set_token key (fst (fst (h _ op2 (snd (h _ op1 w)))))),
         lift_err (snd (fst (h _ op2 (snd (h _ op1 w)))))),
        snd (h _ op2 (snd (h _ op1 w))), [Ev op1; Ev op2])).
Proof.
  unfold SetToken.
  destruct (nonempty (TenantID s)), (nonempty (ClientID s)),
    (nonempty (ClientSecret s)), (nonempty (ClientCertificate s)),
    (nonempty (Tenant s)), (nonempty (AppID s)), (nonempty (Password s));
    cbn [andb orb negb bind call];
    first
      [ left; reflexivity
      | right; left; eexists; split;
        [| unfold assign_token; rewrite run_call_ret; reflexivity]; reflexivity
      | right; right;
        rewrite run_Vis;
        destruct (h _ (ParseCertificates (bytes_of_string (ClientCertificate s))
                         (bytes_of_string (ClientCertificatePassword s))) w)
          as [[[certs pk] perr] w1] eqn:E;
        cbn [fst snd bind]; unfold assign_token; rewrite run_call_ret;
        exists (ParseCertificates (bytes_of_string (ClientCertificate s))
                  (bytes_of_string (ClientCertificatePassword s))),
               (NewClientCertificateCredential (TenantID s) (ClientID s) certs pk
                  (ClientCertificateSendChain s) (GetAuthorityHost s));
        rewrite E; cbn [fst snd]; repeat split ].
Qed.

(** X1.  [SetToken] writes no field of the record but the token: whatever
    the config and the double, the record it leaves is the given one with
    some token, so the persisted fields and the key reference are as before. *)
Theorem SetToken_changes_token_only {W : Type} (h : Handler W) (w : W)
    (s : AADConfig) (key : MasterKey) :
  exists (t : option TokenCredential) (key' : MasterKey),
    returned (run h (SetToken (Some s) (Some key)) w) = Some key' /\
    key' = set_token key t /\
    same_persisted key' key /\
    ToString key' = ToString key.
Proof.
  destruct (SetToken_run_cases h w s key) as [E | [[op [_ E]] | [op1 [op2 [_ [_ E]]]]]];
    rewrite E; unfold returned; cbn [fst].
  - exists (token key), key. rewrite set_token_same.
    repeat split; reflexivity.
  - eexists _, _. repeat split; reflexivity.
  - eexists _, _. repeat split; reflexivity.
Qed.

(** X2.  [SetToken] talks to [azidentity] only: under every double it makes
    at most two requests, none of them to the key vault (no client is
    built, nothing is encrypted or decrypted); with a nil config or a nil
    record it makes no request at all. *)
Theorem SetToken_identity_requests_only {W : Type} (h : Handler W) (w : W)
    (s : option AADConfig) (key : option MasterKey) :
  Forall (fun e => identity_request e = true) (requests (run h (SetToken s key) w)) /\
  (List.length (requests (run h (SetToken s key) w)) <= 2)%nat /\
  (s = None \/ key = None -> requests (run h (SetToken s key) w) = []).
Proof.
  destruct s as [s |], key as [key |];
    try (split; [constructor | split; [simpl; lia | reflexivity]]).
  destruct (SetToken_run_cases h w s key)
    as [E | [[op [H E]] | [op1 [op2 [H1 [H2 E]]]]]];
    rewrite E; unfold requests; cbn [snd List.length];
    (split; [repeat constructor; assumption |]);
    (split; [lia | intros [Hn | Hn]; discriminate Hn]).
Qed.

(** X3.  Under every double, [SetToken] ends in the invalid-data error
    exactly when [clientId] is empty and one of the legacy [tenant], [appId],
    [password] is empty; it then has made no request and left the record as
    it was. *)
Theorem SetToken_invalid_data_exactly {W : Type} (h : Handler W) (w : W)
    (s : AADConfig) (key : MasterKey) :
  (returned_error (run h (SetToken (Some s) (Some key)) w)
     = Some (Errorf invalid_data_message)
   <-> ClientID s = "" /\ (Tenant s = "" \/ AppID s = "" \/ Password s = "")) /\
  (returned_error (run h (SetToken (Some s) (Some key)) w)
     = Some (Errorf invalid_data_message) ->
   run h (SetToken (Some s) (Some key)) w
     = ((Some key, Some (Errorf invalid_data_message)), w, [])).
Proof.
  assert (Hcond : reaches_clientID_test s = true /\ nonempty (ClientID s) = false
                  <-> ClientID s = "" /\
                      (Tenant s = "" \/ AppID s = "" \/ Password s = "")).
  { unfold reaches_clientID_test.
    pose proof (nonempty_iff (ClientID s)) as Hc.
    pose proof (nonempty_iff (Tenant s)) as Ht.
    pose proof (nonempty_iff (AppID s)) as Ha.
    pose proof (nonempty_iff (Password s)) as Hp.
    destruct (String.eqb_spec (ClientID s) ""), (String.eqb_spec (Tenant s) ""),
      (String.eqb_spec (AppID s) ""), (String.eqb_spec (Password s) "");
      destruct (nonempty (ClientID s)), (nonempty (Tenant s)),
        (nonempty (AppID s)), (nonempty (Password s)), (nonempty (TenantID s));
      cbn [andb orb negb]; intuition (try discriminate; try congruence). }
  split.
  - rewrite SetToken_invalid_data_run_iff. exact Hcond.
  - intros H. apply SetToken_invalid_data_run_iff in H.
    apply (SetToken_invalid_data_iff s key) in H. rewrite H. reflexivity.
Qed.

(** X4.  The legacy fields come before the managed identity: when [tenant],
    [appId] and [password] are all present and the [tenantId] / [clientId]
    block does not return (one of the two is empty, or there is neither a
    secret nor a certificate), [SetToken] makes one request, a client-secret
    credential from [tenant], [appId] and [password], also when [clientId]
    is present. *)
Theorem SetToken_legacy_before_managed_identity (s : AADConfig) (key : MasterKey) :
  Tenant s <> "" -> AppID s <> "" -> Password s <> "" ->
  TenantID s = "" \/ ClientID s = "" \/
    (ClientSecret s = "" /\ ClientCertificate s = "") ->
  SetToken (Some s) (Some key) =
    Vis (NewClientSecretCredential (Tenant s) (AppID s) (Password s)
           (GetAuthorityHost s))
        (assign_token key) /\
  forall (W : Type) (h : Handler W) (w : W),
    requests (run h (SetToken (Some s) (Some key)) w) =
      [Ev (NewClientSecretCredential (Tenant s) (AppID s) (Password s)
             (GetAuthorityHost s))].
Proof.
  intros Ht Ha Hp Hblock.
  assert (E : SetToken (Some s) (Some key) =
    Vis (NewClientSecretCredential (Tenant s) (AppID s) (Password s)
           (GetAuthorityHost s))
        (fun r => Ret (Some (set_token key (fst r)), lift_err (snd r)))).
  { unfold SetToken.
    rewrite (nonempty_true _ Ht), (nonempty_true _ Ha), (nonempty_true _ Hp).
    destruct Hblock as [H | [H | [H1 H2]]].
    - rewrite (nonempty_false _ H). reflexivity.
    - rewrite (nonempty_false _ H), andb_false_r. reflexivity.
    - rewrite (nonempty_false _ H1), (nonempty_false _ H2).
      destruct (nonempty (TenantID s) && nonempty (ClientID s)); reflexivity. }
  split; [exact E |].
  intros W h w. rewrite E, run_call_ret. reflexivity.
Qed.

(** The runs of [SetToken] on a config and a record that make a request:
    the last request is to a credential constructor, and the error returned
    is the error component of its response. *)
Lemma SetToken_constructor_cases {W : Type} (h : Handler W) (w : W)
    (s : AADConfig) (key : MasterKey) :
  run h (SetToken (Some s) (Some key)) w
    = ((Some key, Some (Errorf invalid_data_message)), w, []) \/
  (exists op : Op (option TokenCredential * option LibError),
     credential_constructor (Ev op) = true /\
     requests (run h (SetToken (Some s) (Some key)) w) = [Ev op] /\
     returned_error (run h (SetToken (Some s) (Some key)) w)
       = option_map LibErr (snd (fst (h _ op w)))) \/
  (exists (op1 : Op (Certificates * PrivateKey * option LibError))
          (op2 : Op (option TokenCredential * option LibError)),
     credential_constructor (Ev op2) = true /\
     requests (run h (SetToken (Some s) (Some key)) w) = [Ev op1; Ev op2] /\
     returned_error (run h (SetToken (Some s) (Some key)) w)
       = option_map LibErr (snd (fst (h _ op2 (snd (h _ op1 w)))))).
Proof.
  unfold SetToken.
  destruct (nonempty (TenantID s)), (nonempty (ClientID s)),
    (nonempty (ClientSecret s)), (nonempty (ClientCertificate s)),
    (nonempty (Tenant s)), (nonempty (AppID s)), (nonempty (Password s));
    cbn [andb orb negb bind call];
    first
      [ left; reflexivity
      | right; left; eexists; split;
        [| unfold assign_token; rewrite run_call_ret; split; reflexivity];
        reflexivity
      | right; right;
        rewrite run_Vis;
        destruct (h _ (ParseCertificates (bytes_of_string (ClientCertificate s))
                         (bytes_of_string (ClientCertificatePassword s))) w)
          as [[[certs pk] perr] w1] eqn:E;
        cbn [fst snd bind]; unfold assign_token; rewrite run_call_ret;
        exists (ParseCertificates (bytes_of_string (ClientCertificate s))
                  (bytes_of_string (ClientCertificatePassword s))),
               (NewClientCertificateCredential (TenantID s) (ClientID s) certs pk
                  (ClientCertificateSendChain s) (GetAuthorityHost s));
        rewrite E; cbn [fst snd]; repeat split ].
Qed.

(** X5.  [SetToken] wraps no error and invents none.  Under every double
    a run is of one of four kinds: with a nil config or record, no request
    and a nil error; no request and the invalid-data error; or one or two
    requests of which the last is to a credential constructor, and then the
    error returned is exactly the error component of that constructor's
    response, as it is (nil when that is nil). *)
Theorem SetToken_errors_unwrapped {W : Type} (h : Handler W) (w : W)
    (s : option AADConfig) (key : option MasterKey) :
  ((s = None \/ key = None) /\
   requests (run h (SetToken s key) w) = [] /\
   returned_error (run h (SetToken s key) w) = None) \/
  (requests (run h (SetToken s key) w) = [] /\
   returned_error (run h (SetToken s key) w) = Some (Errorf invalid_data_message)) \/
  (exists op : Op (option TokenCredential * option LibError),
     credential_constructor (Ev op) = true /\
     requests (run h (SetToken s key) w) = [Ev op] /\
     returned_error (run h (SetToken s key) w)
       = option_map LibErr (snd (fst (h _ op w)))) \/
  (exists (op1 : Op (Certificates * PrivateKey * option LibError))
          (op2 : Op (option TokenCredential * option LibError)),
     credential_constructor (Ev op2) = true /\
     requests (run h (SetToken s key) w) = [Ev op1; Ev op2] /\
     returned_error (run h (SetToken s key) w)
       = option_map LibErr (snd (fst (h _ op2 (snd (h _ op1 w)))))).
Proof.
  destruct s as [s |], key as [key |];
    try (left; split; [auto | split; reflexivity]).
  right.
  destruct (SetToken_constructor_cases h w s key) as [E | [H | H]].
  - left. rewrite E. split; reflexivity.
  - right; left. exact H.
  - right; right. exact H.
Qed.

(** X6.  A client secret comes before a certificate: when [tenantId],
    [clientId] and [clientSecret] are present, [SetToken] requests the
    client-secret credential and nothing else, whatever the other fields
    hold; a certificate that is present as well is never parsed. *)
Theorem SetToken_client_secret_before_certificate (s : AADConfig) (key : MasterKey) :
  TenantID s <> "" -> ClientID s <> "" -> ClientSecret s <> "" ->
  forall (W : Type) (h : Handler W) (w : W),
    run h (SetToken (Some s) (Some key)) w =
      ((Some (set_token key
                (fst (fst (h _ (NewClientSecretCredential (TenantID s) (ClientID s)
                                  (ClientSecret s) (GetAuthorityHost s)) w)))),
        lift_err
          (snd (fst (h _ (NewClientSecretCredential (TenantID s) (ClientID s)
                            (ClientSecret s) (GetAuthorityHost s)) w)))),
       snd (h _ (NewClientSecretCredential (TenantID s) (ClientID s)
                   (ClientSecret s) (GetAuthorityHost s)) w),
       [Ev (NewClientSecretCredential (TenantID s) (ClientID s)
              (ClientSecret s) (GetAuthorityHost s))]).
Proof.
  intros Ht Hc Hs W h w. unfold SetToken.
  rewrite (nonempty_true _ Ht), (nonempty_true _ Hc), (nonempty_true _ Hs).
  cbn [andb bind call]. unfold assign_token. rewrite run_call_ret. reflexivity.
Qed.

(** ** Key record *)

(** The three ways a run of [Encrypt] ends: the client is refused; the
    remote operation fails; or it succeeds and the ciphertext is stored. *)
Lemma Encrypt_run_cases {W : Type} (h : Handler W) (w : W)
    (dataKey : list byte) (key : MasterKey) :
  (exists e : LibError,
     run h (Encrypt dataKey key) w =
       ((key, Some (Wrapf "failed to construct client to encrypt data" (LibErr e))),
        snd (h _ (NewClient (ToString key) (token key)) w),
        [Ev (NewClient (ToString key) (token key))])) \/
  (exists (c : CryptoClient) (w2 : W),
     (exists e : LibError,
        run h (Encrypt dataKey key) w =
          ((key, Some (Wrapf "failed to encrypt data" (LibErr e))), w2,
           [Ev (NewClient (ToString key) (token key));
            Ev (ClientEncrypt c AlgorithmRSAOAEP256 dataKey)])) \/
     (exists res : list byte,
        run h (Encrypt dataKey key) w =
          ((set_EncryptedKey key (string_of_bytes res), None), w2,
           [Ev (NewClient (ToString key) (token key));
            Ev (ClientEncrypt c AlgorithmRSAOAEP256 dataKey)]))).
Proof.
  destruct (h _ (NewClient (ToString key) (token key)) w) as [[c | e] w1] eqn:E1.
  - right.
    destruct (h _ (ClientEncrypt c AlgorithmRSAOAEP256 dataKey) w1)
      as [resp w2] eqn:E2.
    exists c, w2.
    rewrite (run_Encrypt_client_ok h w w1 w2 dataKey key c resp E1 E2).
    destruct resp as [res | e]; [right; exists res | left; exists e]; reflexivity.
  - left. exists e.
    rewrite (run_Encrypt_client_error h w w1 dataKey key e E1). reflexivity.
Qed.


(** X7.  The outcome of [Encrypt], by what the double answers.  When the
    client is refused, or the remote operation fails, the record is exactly
    as it was (a payload it held is kept) and the error is the library's,
    wrapped in the message of the step that failed.  When the operation
    succeeds, the error is nil, the record differs from the given one only in
    the payload, and [EncryptedDataKey] gives back the very bytes the service
    answered. *)
Theorem Encrypt_outcome {W : Type} (h : Handler W) (w : W)
    (dataKey : list byte) (key : MasterKey) :
  match fst (h _ (NewClient (ToString key) (token key)) w) with
  | Err e =>
      fst (fst (run h (Encrypt dataKey key) w)) =
        (key, Some (Wrapf "failed to construct client to encrypt data" (LibErr e)))
  | Ok c =>
      match fst (h _ (ClientEncrypt c AlgorithmRSAOAEP256 dataKey)
                   (snd (h _ (NewClient (ToString key) (token key)) w))) with
      | Err e =>
          fst (fst (run h (Encrypt dataKey key) w)) =
            (key, Some (Wrapf "failed to encrypt data" (LibErr e)))
      | Ok res =>
          fst (fst (run h (Encrypt dataKey key) w)) =
            (set_EncryptedKey key (string_of_bytes res), None) /\
          EncryptedDataKey (returned (run h (Encrypt dataKey key) w)) = res
      end
  end.
Proof.
  destruct (h _ (NewClient (ToString key) (token key)) w) as [[c | e] w1] eqn:E1;
    cbn [fst snd].
  - destruct (h _ (ClientEncrypt c AlgorithmRSAOAEP256 dataKey) w1)
      as [resp w2] eqn:E2.
    rewrite (run_Encrypt_client_ok h w w1 w2 dataKey key c resp E1 E2).
    destruct resp as [res | e]; cbn [fst snd]; [| reflexivity].
    split; [reflexivity |]. unfold returned. cbn [fst].
    apply bytes_of_string_of_bytes.
  - rewrite (run_Encrypt_client_error h w w1 dataKey key e E1). reflexivity.
Qed.

(** X8.  What [Encrypt] and [Decrypt] ask of the key vault.  Each asks for
    a client for the record's key reference and token.  When the double
    refuses it, that is the only request.  When the double gives the client
    [c], exactly one more request follows, with that client and the algorithm
    RSA-OAEP-256: the encryption of [dataKey] for [Encrypt], the decryption
    of the stored payload for [Decrypt].  Neither asks anything of
    [azidentity]. *)
Theorem Encrypt_Decrypt_requests {W : Type} (h : Handler W) (w : W)
    (dataKey : list byte) (key : MasterKey) :
  match fst (h _ (NewClient (ToString key) (token key)) w) with
  | Err _ =>
      requests (run h (Encrypt dataKey key) w)
        = [Ev (NewClient (ToString key) (token key))] /\
      requests (run h (Decrypt key) w)
        = [Ev (NewClient (ToString key) (token key))]
  | Ok c =>
      requests (run h (Encrypt dataKey key) w)
        = [Ev (NewClient (ToString key) (token key));
           Ev (ClientEncrypt c "RSA-OAEP-256" dataKey)] /\
      requests (run h (Decrypt key) w)
        = [Ev (NewClient (ToString key) (token key));
           Ev (ClientDecrypt c "RSA-OAEP-256" (EncryptedDataKey key))]
  end /\
  Forall (fun e => identity_request e = false)
    (requests (run h (Encrypt dataKey key) w)
     ++ requests (run h (Decrypt key) w))%list.
Proof.
  destruct (h _ (NewClient (ToString key) (token key)) w) as [[c | e] w1] eqn:E1;
    cbn [fst snd].
  - destruct (h _ (ClientEncrypt c AlgorithmRSAOAEP256 dataKey) w1)
      as [r2 w2] eqn:E2.
    destruct (h _ (ClientDecrypt c AlgorithmRSAOAEP256
                     (bytes_of_string (EncryptedKey key))) w1)
      as [r3 w3] eqn:E3.
    rewrite (run_Encrypt_client_ok h w w1 w2 dataKey key c r2 E1 E2).
    rewrite (run_Decrypt_client_ok h w w1 w3 key c r3 E1 E3).
    unfold requests. cbn [snd app].
    split; [split; reflexivity | repeat constructor].
  - rewrite (run_Encrypt_client_error h w w1 dataKey key e E1).
    rewrite (run_Decrypt_client_error h w w1 key e E1).
    unfold requests. cbn [snd app].
    split; [split; reflexivity | repeat constructor].
Qed.

(** X9.  The outcome of [Decrypt], by what the double answers.  When the
    client is refused, or the remote operation fails, no plaintext is
    returned and the error is the library's, wrapped in the message of the
    step that failed.  When the operation succeeds, what is returned is the
    plaintext the service answered, as it is, with a nil error. *)
Theorem Decrypt_outcome {W : Type} (h : Handler W) (w : W) (key : MasterKey) :
  match fst (h _ (NewClient (ToString key) (token key)) w) with
  | Err e =>
      fst (fst (run h (Decrypt key) w)) =
        (None, Some (Wrapf "failed to construct client to decrypt data" (LibErr e)))
  | Ok c =>
      match fst (h _ (ClientDecrypt c AlgorithmRSAOAEP256 (EncryptedDataKey key))
                   (snd (h _ (NewClient (ToString key) (token key)) w))) with
      | Err e =>
          fst (fst (run h (Decrypt key) w)) =
            (None, Some (Wrapf "failed to decrypt data" (LibErr e)))
      | Ok res =>
          fst (fst (run h (Decrypt key) w)) = (Some res, None)
      end
  end.
Proof.
  destruct (h _ (NewClient (ToString key) (token key)) w) as [[c | e] w1] eqn:E1;
    cbn [fst snd].
  - unfold EncryptedDataKey.
    destruct (h _ (ClientDecrypt c AlgorithmRSAOAEP256
                     (bytes_of_string (EncryptedKey key))) w1)
      as [resp w2] eqn:E2.
    rewrite (run_Decrypt_client_ok h w w1 w2 key c resp E1 E2).
    destruct resp as [res | e]; reflexivity.
  - rewrite (run_Decrypt_client_error h w w1 key e E1). reflexivity.
Qed.

(** X10.  Under every double [EncryptIfNeeded] calls the service exactly
    when the payload is empty: there it makes the requests of [Encrypt], and
    with a payload it makes none. *)
Theorem EncryptIfNeeded_requests {W : Type} (h : Handler W) (w : W)
    (dataKey : list byte) (key : MasterKey) :
  (requests (run h (EncryptIfNeeded dataKey key) w) = [] <-> EncryptedKey key <> "") /\
  (EncryptedKey key = "" ->
   run h (EncryptIfNeeded dataKey key) w = run h (Encrypt dataKey key) w).
Proof.
  unfold EncryptIfNeeded.
  destruct (String.eqb_spec (EncryptedKey key) "") as [He | Hne].
  - split; [| reflexivity]. split; [| intros H; contradiction].
    intros H. exfalso.
    destruct (Encrypt_run_cases h w dataKey key)
      as [[e E] | [c [w2 [[e E] | [res E]]]]]; rewrite E in H; discriminate H.
  - split; [| intros H; contradiction].
    split; [intros _; exact Hne | reflexivity].
Qed.

(** X11.  Encrypting does not renew the record: [Encrypt] and
    [EncryptIfNeeded] leave the creation date alone, so after them
    [NeedsRotation] answers as before, whatever the double did. *)
Theorem NeedsRotation_after_Encrypt {W : Type} (h : Handler W) (w : W)
    (now : Time) (dataKey : list byte) (key : MasterKey) :
  NeedsRotation now (returned (run h (Encrypt dataKey key) w))
    = NeedsRotation now key /\
  NeedsRotation now (returned (run h (EncryptIfNeeded dataKey key) w))
    = NeedsRotation now key.
Proof.
  assert (H : NeedsRotation now (returned (run h (Encrypt dataKey key) w))
              = NeedsRotation now key).
  { destruct (Encrypt_run_cases h w dataKey key)
      as [[e E] | [c [w2 [[e E] | [res E]]]]]; rewrite E; reflexivity. }
  split; [exact H |]. unfold EncryptIfNeeded.
  destruct (String.eqb (EncryptedKey key) ""); [exact H | reflexivity].
Qed.

(** X12.  Once a record needs rotation it keeps needing it as the clock
    moves on. *)
Theorem NeedsRotation_monotone (now now' : Time) (key : MasterKey) :
  NeedsRotation now key = true -> now <= now' -> NeedsRotation now' key = true.
Proof.
  unfold NeedsRotation, Since, Sub, maxDuration, minDuration.
  rewrite rotation_period. intros H Hle.
  apply Z.gtb_gt in H. apply Z.gtb_gt.
  destruct (Z.ltb_spec (2 ^ 63 - 1) (now - CreationDate key));
    destruct (Z.ltb_spec (2 ^ 63 - 1) (now' - CreationDate key));
    destruct (Z.ltb_spec (now - CreationDate key) (- 2 ^ 63));
    destruct (Z.ltb_spec (now' - CreationDate key) (- 2 ^ 63)); lia.
Qed.


(** ** Serialization *)

(** X14.  [ToMap] has exactly the five entries [vaultUrl], [key],
    [version], [created_at] and [enc], holding the corresponding fields (the
    creation date formatted); there is no entry under any other name, and the
    token does not enter the map. *)
Theorem ToMap_entries (RFC3339_UTC : Time -> string) (key : MasterKey) :
  map_get (ToMap RFC3339_UTC key) "vaultUrl" = Some (VaultURL key) /\
  map_get (ToMap RFC3339_UTC key) "key" = Some (Name key) /\
  map_get (ToMap RFC3339_UTC key) "version" = Some (Version key) /\
  map_get (ToMap RFC3339_UTC key) "created_at"
    = Some (RFC3339_UTC (CreationDate key)) /\
  map_get (ToMap RFC3339_UTC key) "enc" = Some (EncryptedKey key) /\
  (forall k : string,
     k <> "vaultUrl" -> k <> "key" -> k <> "version" -> k <> "created_at" ->
     k <> "enc" -> map_get (ToMap RFC3339_UTC key) k = None) /\
  List.length (ToMap RFC3339_UTC key) = 5%nat /\
  (forall t : option TokenCredential,
     ToMap RFC3339_UTC (set_token key t) = ToMap RFC3339_UTC key).
Proof.
  repeat (split; [reflexivity |]).
  split; [| split; reflexivity].
  intros k H1 H2 H3 H4 H5.
  change (ToMap RFC3339_UTC key)
    with [("vaultUrl", VaultURL key); ("key", Name key); ("version", Version key);
          ("created_at", RFC3339_UTC (CreationDate key));
          ("enc", EncryptedKey key)].
  cbn [map_get].
  repeat match goal with
         | |- context [String.eqb ?a k] =>
             destruct (String.eqb_spec a k); [congruence |]
         end.
  reflexivity.
Qed.

(** X15.  Two records have the same map (the same value under every name)
    exactly when they agree on vault URL, name, version, payload and
    formatted creation date: the map determines the key reference and the
    payload. *)
Theorem ToMap_determines_record (RFC3339_UTC : Time -> string) (k1 k2 : MasterKey) :
  (forall k : string,
     map_get (ToMap RFC3339_UTC k1) k = map_get (ToMap RFC3339_UTC k2) k)
  <-> VaultURL k1 = VaultURL k2 /\ Name k1 = Name k2 /\ Version k1 = Version k2 /\
      EncryptedKey k1 = EncryptedKey k2 /\
      RFC3339_UTC (CreationDate k1) = RFC3339_UTC (CreationDate k2).
Proof.
  split.
  - intros H.
    pose proof (H "vaultUrl") as H1. pose proof (H "key") as H2.
    pose proof (H "version") as H3. pose proof (H "created_at") as H4.
    pose proof (H "enc") as H5.
    change (Some (VaultURL k1) = Some (VaultURL k2)) in H1.
    change (Some (Name k1) = Some (Name k2)) in H2.
    change (Some (Version k1) = Some (Version k2)) in H3.
    change (Some (RFC3339_UTC (CreationDate k1))
            = Some (RFC3339_UTC (CreationDate k2))) in H4.
    change (Some (EncryptedKey k1) = Some (EncryptedKey k2)) in H5.
    repeat split; congruence.
  - intros [H1 [H2 [H3 [H4 H5]]]] k.
    change (ToMap RFC3339_UTC k1)
      with [("vaultUrl", VaultURL k1); ("key", Name k1); ("version", Version k1);
            ("created_at", RFC3339_UTC (CreationDate k1));
            ("enc", EncryptedKey k1)].
    change (ToMap RFC3339_UTC k2)
      with [("vaultUrl", VaultURL k2); ("key", Name k2); ("version", Version k2);
            ("created_at", RFC3339_UTC (CreationDate k2));
            ("enc", EncryptedKey k2)].
    rewrite H1, H2, H3, H4, H5. reflexivity.
Qed.

(** ** Decoding *)

(** X16.  [decode] has no failing input: after a UTF-16 mark the reader
    always holds the [(len(b)/2)-1] values asked for.  So
    [LoadAADConfigFromBytes] never returns the decoding error; its error is
    nil or the error of [yaml.Unmarshal] on the decoded bytes, wrapped. *)
Theorem LoadAADConfigFromBytes_never_decode_error (b : list byte) (s : AADConfig) :
  exists out : list byte,
    decode b = Ok out /\
    LoadAADConfigFromBytes b s =
      (fst (yaml_Unmarshal out s),
       option_map
         (fun e => Wrapf "failed to unmarshal Azure authentication file" (LibErr e))
         (snd (yaml_Unmarshal out s))).
Proof.
  destruct (decode_total b) as [out E]. exists out. split; [exact E |].
  unfold LoadAADConfigFromBytes. rewrite E.
  destruct (yaml_Unmarshal out s) as [s' err]. reflexivity.
Qed.

Lemma Uint16_put_uint16_be (u : Z) :
  is_uint16 u ->
  Uint16 BigEndian (byte_of_Z (Z.shiftr u 8)) (byte_of_Z u) = u.
Proof. exact (Uint16_put_uint16 u). Qed.

Lemma length_put_order (order : ByteOrder) (units : list Z) :
  List.length (flat_map (put_uint16 order) units) = (2 * List.length units)%nat.
Proof.
  induction units as [| u units IH]; [reflexivity |].
  cbn [flat_map]. rewrite length_app, IH. destruct order; simpl; lia.
Qed.

(** Reading [n] values looks at the first [2 * n] bytes only. *)
Lemma uint16s_app (order : ByteOrder) (n : nat) (bs extra : list byte) :
  List.length bs = (2 * n)%nat ->
  uint16s order n (bs ++ extra) = uint16s order n bs.
Proof.
  revert bs. induction n as [| n IH]; intros bs Hlen.
  - destruct bs; [| discriminate Hlen]. destruct extra; reflexivity.
  - destruct bs as [| b0 [| b1 bs]]; try (simpl in Hlen; lia).
    cbn [app uint16s]. rewrite IH; [reflexivity |]. simpl in Hlen. lia.
Qed.

Lemma uint16s_put_order (order : ByteOrder) (units : list Z) :
  Forall is_uint16 units ->
  uint16s order (List.length units) (flat_map (put_uint16 order) units) = units.
Proof.
  induction 1 as [| u units Hu _ IH]; [reflexivity |].
  destruct order; cbn [flat_map put_uint16 app List.length uint16s];
    rewrite ?Uint16_put_uint16, ?Uint16_put_uint16_be by exact Hu;
    rewrite IH; reflexivity.
Qed.

(** With at least [2 * n] bytes to read, [binary.Read] succeeds. *)
Lemma binary_Read_enough (order : ByteOrder) (n : nat) (bs : list byte) :
  (2 * n <= List.length bs)%nat ->
  binary_Read bs order n = Ok (uint16s order n bs).
Proof.
  intros Hlen. unfold binary_Read.
  destruct n as [| n]; [destruct bs as [| ? [| ? ?]]; reflexivity |].
  destruct bs as [| b0 bs]; [simpl in Hlen; lia |].
  replace (_ <? _)%nat with false; [reflexivity |].
  symmetry. apply Nat.ltb_ge. exact Hlen.
Qed.

(** The number of values [decode] reads after a two-byte mark. *)
Lemma u16_len_after_mark (m1 m2 : byte) (bs : list byte) (n : nat) :
  List.length bs = (2 * n)%nat \/ List.length bs = (2 * n + 1)%nat ->
  u16_len (m1 :: m2 :: bs) = n.
Proof.
  intros Hlen. unfold u16_len. cbn [List.length].
  assert (Z.of_nat (S (S (List.length bs))) / 2 = Z.of_nat n + 1); [| lia].
  symmetry. apply Z.div_unique with (r := Z.of_nat (List.length bs) - 2 * Z.of_nat n); lia.
Qed.

Lemma Skip_UTF16BigEndian (bs : list byte) :
  Skip (xfe :: xff :: bs) = (bs, UTF16BigEndian).
Proof.
  unfold Skip.
  rewrite (strip_prefix_None [x00; x00; xfe; xff]) by (intros r E; discriminate E).
  rewrite (strip_prefix_None [xff; xfe; x00; x00]) by (intros r E; discriminate E).
  rewrite (strip_prefix_None [xef; xbb; xbf]) by (intros r E; discriminate E).
  reflexivity.
Qed.

(** X17.  UTF-16 big-endian input with a byte-order mark is transcoded to
    the UTF-8 encoding of the same text, for every text of Unicode scalar
    values: the big-endian mark is the start of no other mark, so no first
    character is excepted. *)
Theorem decode_utf16be_bom (text : list Z) :
  Forall scalar text ->
  decode (xfe :: xff :: utf16_bytes BigEndian text) = Ok (utf8_bytes text).
Proof.
  intros Hs. unfold decode, utf16_bytes. rewrite Skip_UTF16BigEndian.
  rewrite (u16_len_after_mark _ _ _ (List.length (utf16_Encode text)))
    by (left; apply length_put_order).
  rewrite binary_Read_enough by (rewrite length_put_order; lia).
  rewrite uint16s_put_order by (apply utf16_Encode_units; exact Hs).
  rewrite utf16_Decode_Encode by exact Hs. reflexivity.
Qed.

(** X18.  A UTF-16 input cut in the middle of a value is not an error: an
    odd byte after an even number of bytes behind the mark is dropped, and
    the result is that of the input without it.  (For little endian, the
    bytes must not begin with two zero bytes, which would make the mark a
    UTF-32 one.) *)
Theorem decode_utf16_odd_byte_dropped (bs : list byte) (b : byte) (n : nat) :
  List.length bs = (2 * n)%nat ->
  decode (xfe :: xff :: bs ++ [b]) = decode (xfe :: xff :: bs) /\
  ((forall r, bs <> x00 :: x00 :: r) ->
   decode (xff :: xfe :: bs ++ [b]) = decode (xff :: xfe :: bs)).
Proof.
  intros Hlen.
  assert (Hlen' : List.length (bs ++ [b]) = (2 * n + 1)%nat)
    by (rewrite length_app, Hlen; simpl; lia).
  split.
  - unfold decode. rewrite !Skip_UTF16BigEndian.
    rewrite (u16_len_after_mark _ _ bs n) by (left; exact Hlen).
    rewrite (u16_len_after_mark _ _ (bs ++ [b]) n) by (right; exact Hlen').
    rewrite !binary_Read_enough by lia.
    rewrite uint16s_app by exact Hlen. reflexivity.
  - intros Hz. unfold decode.
    rewrite (Skip_UTF16LittleEndian bs) by exact Hz.
    rewrite (Skip_UTF16LittleEndian (bs ++ [b])).
    + rewrite (u16_len_after_mark _ _ bs n) by (left; exact Hlen).
      rewrite (u16_len_after_mark _ _ (bs ++ [b]) n) by (right; exact Hlen').
      rewrite !binary_Read_enough by lia.
      rewrite uint16s_app by exact Hlen. reflexivity.
    + intros r E. destruct bs as [| b0 [| b1 bs]].
      * discriminate E.
      * simpl in Hlen. lia.
      * cbn [app] in E. injection E as -> -> _. apply (Hz bs). reflexivity.
Qed.

(** X19.  Input without a UTF-16 mark is never transcoded: the empty input
    and input whose first byte starts no mark come back as they are, a UTF-8
    mark is removed, and behind a UTF-32 mark the bytes come back raw. *)
Theorem decode_without_utf16_mark (b0 : byte) (bs : list byte) :
  b0 <> x00 -> b0 <> xef -> b0 <> xfe -> b0 <> xff ->
  decode (b0 :: bs) = Ok (b0 :: bs) /\
  decode [] = Ok [] /\
  decode (xef :: xbb :: xbf :: bs) = Ok bs /\
  decode (x00 :: x00 :: xfe :: xff :: bs) = Ok bs /\
  decode (xff :: xfe :: x00 :: x00 :: bs) = Ok bs.
Proof.
  intros H0 Hef Hfe Hff. split; [| repeat split].
  unfold decode. rewrite Skip_Unknown; [reflexivity | assumption ..|].
  intros E. contradiction.
Qed.

(** X20.  The certificate branch.  With [tenantId], [clientId] and
    [clientCertificate] present and no [clientSecret], [SetToken] makes two
    requests: [ParseCertificates] on the bytes of the certificate and of its
    password, then the certificate credential constructor with [tenantId],
    [clientId], the certificates and key of the first response, the
    send-chain flag and the authority host.  The token and the error are the
    two components of the second response. *)
Theorem SetToken_certificate_credential {W : Type} (h : Handler W) (w : W)
    (s : AADConfig) (key : MasterKey) :
  TenantID s <> "" -> ClientID s <> "" -> ClientSecret s = "" ->
  ClientCertificate s <> "" ->
  let parse := ParseCertificates (bytes_of_string (ClientCertificate s))
                 (bytes_of_string (ClientCertificatePassword s)) in
  let build := NewClientCertificateCredential (TenantID s) (ClientID s)
                 (fst (fst (fst (h _ parse w)))) (snd (fst (fst (h _ parse w))))
                 (ClientCertificateSendChain s) (GetAuthorityHost s) in
  run h (SetToken (Some s) (Some key)) w =
    ((Some (set_token key (fst (fst (h _ build (snd (h _ parse w)))))),
      lift_err (snd (fst (h _ build (snd (h _ parse w)))))),
     snd (h _ build (snd (h _ parse w))),
     [Ev parse; Ev build]).
Proof.
  intros Ht Hc Hs Hcert parse build. subst parse build.
  destruct (h _ (ParseCertificates (bytes_of_string (ClientCertificate s))
                   (bytes_of_string (ClientCertificatePassword s))) w)
    as [[[certs pk] perr] w1] eqn:E1.
  cbn [fst snd].
  destruct (h _ (NewClientCertificateCredential (TenantID s) (ClientID s) certs pk
                   (ClientCertificateSendChain s) (GetAuthorityHost s)) w1)
    as [r w2] eqn:E2.
  cbn [fst snd].
  apply (SetToken_certificate_branch h w w1 w2 s key certs pk perr r
           Ht Hc Hs Hcert E1 E2).
Qed.

(** X21.  The managed identity.  With a [clientId], no [tenantId], and the
    legacy fields not all present, [SetToken] makes one request, a
    managed-identity credential for the [clientId]; the token and the error
    are the two components of the response. *)
Theorem SetToken_managed_identity (s : AADConfig) (key : MasterKey) :
  ClientID s <> "" -> TenantID s = "" ->
  Tenant s = "" \/ AppID s = "" \/ Password s = "" ->
  forall (W : Type) (h : Handler W) (w : W),
    run h (SetToken (Some s) (Some key)) w =
      ((Some (set_token key
                (fst (fst (h _ (NewManagedIdentityCredential (ClientID s)) w)))),
        lift_err (snd (fst (h _ (NewManagedIdentityCredential (ClientID s)) w)))),
       snd (h _ (NewManagedIdentityCredential (ClientID s)) w),
       [Ev (NewManagedIdentityCredential (ClientID s))]).
Proof.
  intros Hc Ht Hlegacy W h w.
  assert (Hr : reaches_clientID_test s = true).
  { unfold reaches_clientID_test. rewrite (nonempty_false _ Ht). cbn [andb negb].
    destruct Hlegacy as [H | [H | H]]; rewrite (nonempty_false _ H);
      rewrite ?andb_false_r; reflexivity. }
  rewrite (SetToken_last_test s key Hr), (nonempty_true _ Hc).
  unfold assign_token. rewrite run_call_ret. reflexivity.
Qed.


End AzkvFurther.

(** * The double at work *)

Section Concrete.
#[local] Existing Instance double_sdk.

Example ToString_fresh_key : ToString fresh_key = "https://v.example/keys/k1/v1".
Proof. reflexivity. Qed.

(** C3 (the code at the failing input).  On a config of the certificate
    branch whose certificate does not parse, [ParseCertificates] reports its
    error, and [SetToken] goes on to call the credential constructor with the
    empty result; what it returns is the constructor's error, unwrapped, not
    the parse error. *)
Theorem SetToken_parse_error_replaced :
  fst (double _ (ParseCertificates (bytes_of_string "not a certificate") []) 0%nat)
    = ([], false, Some "failed to parse certificate") /\
  run double (SetToken (Some bad_certificate) (Some fresh_key)) 0%nat =
    ((Some fresh_key, Some (LibErr "at least one certificate is required")),
     2%nat,
     [Ev (ParseCertificates (bytes_of_string "not a certificate") []);
      Ev (NewClientCertificateCredential "t" "c" [] false false
            "https://login.microsoftonline.com/")]).
Proof. split; reflexivity. Qed.

(** The double is capable for every key reference and credential. *)
Lemma double_capable (keyURL : string) (cred : option string) :
  capable double keyURL cred keyURL.
Proof.
  split; [reflexivity |].
  intros d w. exists (double_encrypt d). split; reflexivity.
Qed.

(** ** The theorems at concrete inputs *)

(** C6 at the config [secret_and_legacy]: the credential is built from
    [t], [c] and [s], not from the legacy fields. *)
Lemma SetToken_client_secret_before_legacy_witness :
  SetToken (Some secret_and_legacy) (Some fresh_key) =
    Vis (NewClientSecretCredential "t" "c" "s" "https://login.microsoftonline.com/")
        (assign_token fresh_key) /\
  forall (W : Type) (h : Handler W) (w : W),
    requests (run h (SetToken (Some secret_and_legacy) (Some fresh_key)) w) =
      [Ev (NewClientSecretCredential "t" "c" "s" "https://login.microsoftonline.com/")].
Proof.
  apply (SetToken_client_secret_before_legacy secret_and_legacy fresh_key);
    simpl; discriminate.
Defined.

(** C2 against the double, for the data key [01 02 03]. *)
Lemma Decrypt_Encrypt_roundtrip_witness :
  exists (ct : list byte) (w1 : nat),
    run double (Encrypt [x01; x02; x03] key_with_token) 0%nat =
      ((set_EncryptedKey key_with_token (string_of_bytes ct), None), w1,
       [Ev (NewClient "https://v.example/keys/k1/v1" (Some "tok"));
        Ev (ClientEncrypt "https://v.example/keys/k1/v1" "RSA-OAEP-256"
              [x01; x02; x03])]) /\
    forall w' : nat, exists w2 : nat,
      run double (Decrypt (set_EncryptedKey key_with_token (string_of_bytes ct))) w' =
        ((Some [x01; x02; x03], None), w2,
         [Ev (NewClient "https://v.example/keys/k1/v1" (Some "tok"));
          Ev (ClientDecrypt "https://v.example/keys/k1/v1" "RSA-OAEP-256" ct)]).
Proof.
  apply (Decrypt_Encrypt_roundtrip double 0%nat [x01; x02; x03] key_with_token
           "tok" "https://v.example/keys/k1/v1").
  - reflexivity.
  - apply double_capable.
Defined.

(** C4 (counterexample).  [fresh_key] has no token.  [Encrypt] and
    [Decrypt] on it do not fail fast: against the double, each constructs a
    client with the nil credential, invokes the remote operation and returns
    no error. *)
Lemma Encrypt_Decrypt_without_token_reach_service :
  token fresh_key = None /\
  ~ fails_fast (Encrypt [x01] fresh_key) /\
  ~ fails_fast (Decrypt fresh_key) /\
  run double (Encrypt [x01] fresh_key) 0%nat =
    ((set_EncryptedKey fresh_key (string_of_bytes [xaa; x01]), None), 2%nat,
     [Ev (NewClient "https://v.example/keys/k1/v1" None);
      Ev (ClientEncrypt "https://v.example/keys/k1/v1" "RSA-OAEP-256" [x01])]) /\
  run double (Decrypt (set_EncryptedKey fresh_key (string_of_bytes [xaa; x01]))) 0%nat =
    ((Some [x01], None), 2%nat,
     [Ev (NewClient "https://v.example/keys/k1/v1" None);
      Ev (ClientDecrypt "https://v.example/keys/k1/v1" "RSA-OAEP-256" [xaa; x01])]).
Proof.
  split; [reflexivity |].
  split; [intros [a [e H]]; discriminate H |].
  split; [intros [a [e H]]; discriminate H |].
  split; reflexivity.
Qed.

(** C4 as amended, at [fresh_key] against the double: the client request
    succeeds, so the remote operations are invoked. *)
Lemma Encrypt_Decrypt_without_token_witness :
  (forall e : string,
     fst (double _ (NewClient (ToString fresh_key) None) 0%nat) = Err e ->
     fst (run double (Encrypt [x01] fresh_key) 0%nat) =
       ((fresh_key,
         Some (Wrapf "failed to construct client to encrypt data" (LibErr e))),
        snd (double _ (NewClient (ToString fresh_key) None) 0%nat)) /\
     requests (run double (Encrypt [x01] fresh_key) 0%nat)
       = [Ev (NewClient (ToString fresh_key) None)] /\
     fst (run double (Decrypt fresh_key) 0%nat) =
       ((None, Some (Wrapf "failed to construct client to decrypt data" (LibErr e))),
        snd (double _ (NewClient (ToString fresh_key) None) 0%nat)) /\
     requests (run double (Decrypt fresh_key) 0%nat)
       = [Ev (NewClient (ToString fresh_key) None)]) /\
  (forall c : string,
     fst (double _ (NewClient (ToString fresh_key) None) 0%nat) = Ok c ->
     requests (run double (Encrypt [x01] fresh_key) 0%nat) =
       [Ev (NewClient (ToString fresh_key) None);
        Ev (ClientEncrypt c AlgorithmRSAOAEP256 [x01])] /\
     requests (run double (Decrypt fresh_key) 0%nat) =
       [Ev (NewClient (ToString fresh_key) None);
        Ev (ClientDecrypt c AlgorithmRSAOAEP256
              (bytes_of_string (EncryptedKey fresh_key)))]).
Proof.
  apply (Encrypt_Decrypt_without_token double 0%nat [x01] fresh_key).
  reflexivity.
Defined.

(** C7 at [encrypted_key]. *)
Lemma EncryptIfNeeded_idempotent_witness :
  EncryptIfNeeded [x01] encrypted_key = Ret (encrypted_key, None) /\
  (forall (W : Type) (h : Handler W) (w : W),
     run h (EncryptIfNeeded [x01] encrypted_key) w = ((encrypted_key, None), w, [])) /\
  (forall (W : Type) (h : Handler W) (w0 w : W) (key0 : MasterKey)
          (dataKey0 : list byte) (tr : list Event),
     run h (EncryptIfNeeded dataKey0 key0) w0 = ((encrypted_key, None), w, tr) ->
     run h (EncryptIfNeeded [x01] encrypted_key) w = ((encrypted_key, None), w, [])).
Proof.
  apply (EncryptIfNeeded_idempotent encrypted_key [x01]). simpl. discriminate.
Defined.

(** Two calls in succession against the double, from an empty payload: the
    first encrypts, the second makes no request and changes nothing. *)
Example EncryptIfNeeded_twice :
  run double (EncryptIfNeeded [x01] fresh_key) 0%nat =
    ((set_EncryptedKey fresh_key (string_of_bytes [xaa; x01]), None), 2%nat,
     [Ev (NewClient "https://v.example/keys/k1/v1" None);
      Ev (ClientEncrypt "https://v.example/keys/k1/v1" "RSA-OAEP-256" [x01])]) /\
  run double
    (EncryptIfNeeded [x01] (set_EncryptedKey fresh_key (string_of_bytes [xaa; x01])))
    2%nat =
    ((set_EncryptedKey fresh_key (string_of_bytes [xaa; x01]), None), 2%nat, []).
Proof. split; reflexivity. Qed.

(** C8 at a record created at time 0: no rotation at creation nor after
    exactly 180 days, rotation one nanosecond later. *)
Lemma NeedsRotation_spec_witness :
  NeedsRotation 0 fresh_key = false /\
  NeedsRotation 15552000000000000 fresh_key = false /\
  NeedsRotation 15552000000000001 fresh_key = true.
Proof.
  pose proof (NeedsRotation_spec 15552000000000001 fresh_key) as [H _].
  split; [reflexivity | split; [reflexivity |]].
  apply H. reflexivity.
Defined.

Example decode_sample_text :
  utf16_bytes LittleEndian sample_text
    = [x61; x00; x3a; x00; x20; x00; x62; x00] /\
  decode (xff :: xfe :: utf16_bytes LittleEndian sample_text)
    = Ok [x61; x3a; x20; x62].
Proof. split; reflexivity. Qed.

End Concrete.

(** * The further properties at concrete inputs *)

Section FurtherConcrete.
#[local] Existing Instance double_sdk.

(** X4 at [legacy_and_client]: the legacy credential, although [clientId]
    is present. *)
Lemma SetToken_legacy_before_managed_identity_witness :
  SetToken (Some legacy_and_client) (Some fresh_key) =
    Vis (NewClientSecretCredential "legacy-tenant" "legacy-app" "legacy-password"
           "https://login.microsoftonline.com/")
        (assign_token fresh_key) /\
  forall (W : Type) (h : Handler W) (w : W),
    requests (run h (SetToken (Some legacy_and_client) (Some fresh_key)) w) =
      [Ev (NewClientSecretCredential "legacy-tenant" "legacy-app" "legacy-password"
             "https://login.microsoftonline.com/")].
Proof.
  apply (SetToken_legacy_before_managed_identity legacy_and_client fresh_key);
    simpl; try discriminate.
  left. reflexivity.
Defined.

(** X6 at [secret_and_certificate], against the double. *)
Lemma SetToken_client_secret_before_certificate_witness :
  run double (SetToken (Some secret_and_certificate) (Some fresh_key)) 0%nat =
    ((Some (set_token fresh_key (Some "client-secret t c https://login.example/")),
      None),
     1%nat,
     [Ev (NewClientSecretCredential "t" "c" "s" "https://login.example/")]).
Proof.
  apply (SetToken_client_secret_before_certificate secret_and_certificate fresh_key);
    simpl; discriminate.
Defined.

(** X12 at a record created at time 0. *)
Lemma NeedsRotation_monotone_witness :
  NeedsRotation 20000000000000000 fresh_key = true.
Proof.
  apply (NeedsRotation_monotone 15552000000000001 20000000000000000 fresh_key).
  - reflexivity.
  - lia.
Defined.

(** X17 at a text that begins with U+0000. *)
Lemma decode_utf16be_bom_witness :
  decode (xfe :: xff :: utf16_bytes BigEndian [0; 97]) = Ok (utf8_bytes [0; 97]).
Proof.
  apply (decode_utf16be_bom [0; 97]).
  repeat constructor; unfold surr1; lia.
Defined.

Example decode_utf16be_bytes :
  xfe :: xff :: utf16_bytes BigEndian [0; 97] = [xfe; xff; x00; x00; x00; x61] /\
  utf8_bytes [0; 97] = [x00; x61].
Proof. split; reflexivity. Qed.

(** X18 at the bytes [61 00] followed by [62]. *)
Lemma decode_utf16_odd_byte_dropped_witness :
  decode (xfe :: xff :: [x61; x00] ++ [x62]) = decode (xfe :: xff :: [x61; x00]) /\
  ((forall r, [x61; x00] <> x00 :: x00 :: r) ->
   decode (xff :: xfe :: [x61; x00] ++ [x62]) = decode (xff :: xfe :: [x61; x00])).
Proof.
  apply (decode_utf16_odd_byte_dropped [x61; x00] x62 1%nat). reflexivity.
Defined.

(** X19 at the input [{}]. *)
Lemma decode_without_utf16_mark_witness :
  decode [x7b; x7d] = Ok [x7b; x7d] /\
  decode [] = Ok [] /\
  decode (xef :: xbb :: xbf :: [x7d]) = Ok [x7d] /\
  decode (x00 :: x00 :: xfe :: xff :: [x7d]) = Ok [x7d] /\
  decode (xff :: xfe :: x00 :: x00 :: [x7d]) = Ok [x7d].
Proof.
  apply (decode_without_utf16_mark x7b [x7d]); discriminate.
Defined.

(** X20 at [good_certificate], against the double. *)
Lemma SetToken_certificate_credential_witness :
  run double (SetToken (Some good_certificate) (Some fresh_key)) 0%nat =
    ((Some (set_token fresh_key
              (Some "client-certificate t c https://login.example/")),
      None),
     2%nat,
     [Ev (ParseCertificates (bytes_of_string "CERT") (bytes_of_string "pw"));
      Ev (NewClientCertificateCredential "t" "c" (bytes_of_string "CERT") true true
            "https://login.example/")]).
Proof.
  apply (SetToken_certificate_credential double 0%nat good_certificate fresh_key);
    simpl; try discriminate; reflexivity.
Defined.

(** X21 at the config with only [clientId], against the double. *)
Lemma SetToken_managed_identity_witness :
  run double (SetToken (Some client_only) (Some fresh_key)) 0%nat =
    ((Some (set_token fresh_key (Some "managed-identity c")), None), 1%nat,
     [Ev (NewManagedIdentityCredential "c")]).
Proof.
  apply (SetToken_managed_identity client_only fresh_key).
  - simpl. discriminate.
  - reflexivity.
  - left. reflexivity.
Defined.

End FurtherConcrete.

(** * Loading against the YAML double that reads [clientId] *)

Section ConcreteYaml.
#[local] Existing Instance yaml_sdk.



End ConcreteYaml.
